(* ===== verification/_CoqProject ===== *)
-Q . S2P
Prelude.v
Geometry.v
Flash.v
Mapping.v
Ftl.v
Invariants.v
Behaviour.v
Reachable.v
Spec.v
Refinement.v
Main.v
