(* ===== verification/Prelude.v ===== *)
(** * Verification of the flash translation layer simulator (src/ftl.cpp)

    ** The program

    src/ftl.cpp is one C++ file.  It fixes a flash of [TOTAL_BLOCKS = 4]
    blocks of [PAGES_PER_BLOCK = 4] pages (lines 6-8).  A [PhysicalPage]
    holds an [int data] and two flags, [is_valid] and [is_free]; a [Block]
    holds its pages and an [erase_count].  [class FTL_Simulator] owns the
    vector of blocks [flash_memory] and the logical-to-physical table
    [std::map<int,int> l2p_table].  Its methods:
    - [write_data(lba, data)]: (1) if [lba] is mapped, [invalidate_old_page]
      on its address; (2) scan blocks then pages for the first free page,
      program it (data, valid, not free), map [lba] to [b * 4 + p] and print
      the address; if no page is free print "Disk Full!" and return.
    - [invalidate_old_page(addr)]: decode with [/] and [%], clear [is_valid].
    - [read_data(lba)]: print the data of the mapped page, or "not found".
    [main] writes LBA 10 and 20, overwrites LBA 10 and reads both.  Every
    method writes lines to [std::cout]; nothing else is observable.

    ** The development, file by file (dependency order)

    - Prelude.v (this file): the notation scope [ftl_scope], the hint
      databases [ftl] and [ftl_rw], the bounded loop with early return
      [for_first] that models the C++ [for] loops, vectors indexed by a C++
      [int] ([zlookup], [zalter]), counting lemmas shared by the files.
    - Geometry.v, [Module Geometry]: the constants, [physical_addr]
      (line 56) and its decoding [addr_block]/[addr_page] ([Z.quot]/[Z.rem],
      C++'s truncating [/] and [%]; lines 69-70, 80-81).
    - Flash.v, [Module Flash]: the page store.  [PhysicalPage], [Block],
      [new_flash] (the constructors, lines 10-23, 32); the access
      [fm @[b, p]] ([flash_memory[b].pages[p]]); the in-place update
      [update_page] with [program_page] (lines 51-53) and [clear_valid]
      (line 71); the first-fit search [scan_block] and [find_free_page]
      (the nested loops, lines 44-49) and a flat reference search.
    - Mapping.v, [Module StdMap]: the [std::map] operations the code uses:
      [count], [operator[]] read (which inserts 0 on a missing key) and
      assignment; injectivity of a table.
    - Ftl.v, [Module Ftl]: [FTL_Simulator], [init], the printed lines as
      [Event]s, [invalidate_old_page], [write_data] composed of its two
      commented steps [invalidate_mapping] and [program_free_page], and
      [read_data].  Each method is a function from the simulator to the
      updated simulator and the lines it printed.  [Op], [exec] and [run]
      execute a list of calls.
    - Invariants.v: [wf], what holds after every call (the flash keeps its
      shape; no page is both free and valid; the table maps LBAs injectively
      to programmed in-range pages and covers every valid page), and
      [consistent], the design's invariant (every mapped page is valid);
      preservation by each step of [write_data] and by [read_data].
    - Behaviour.v: the result of each branch of [write_data] and
      [read_data]: what a read prints, where a write puts its data, what a
      write on a full device does.
    - Reachable.v: the calls as a step relation, the states reachable from
      the constructor, rule induction ([reachable_ind]), the page life cycle
      and the bounds over runs.
    - Spec.v: the device contract as a type class [BlockDevice] with the
      laws [BlockDeviceLaws], the abstract model [Store] (a dictionary and
      a number of writes left) and a client theorem proved against the
      class alone.
    - Refinement.v: the simulator as an instance of the contract, the
      abstraction function [abs] onto [Store], the refinement theorems.
    - Main.v: [main] as its statements, with the exact text of every
      printed line ([render]).

    ** What is proved

    - Refinement (C1, C16): any sequence of calls, from any well-formed
      state, is simulated by the abstract store (a write stores its value
      when a page is free and changes nothing on a full device), and every
      read prints what the store holds; the client theorem of the contract
      (read returns the most recent write) holds for the simulator.
    - Functional behaviour (C2, C3, C7, C9, C10, C15): read-after-write,
      other LBAs untouched, first-fit placement, [read_data]'s full
      specification, the disk-full branch, unwritten LBAs read "not found".
    - Invariants of reachable states (C4, C6, C13, C14): with a free page
      left every mapped page is valid and valid pages = table entries; no
      two LBAs share a page; each call moves a page by at most one step of
      free -> valid -> stale; every index computed from the table is in range.
    - Equivalence and round trips (C8, C17): the nested loops compute the
      flat lowest-free-address search; address encoding and decoding are
      inverse.
    - Bounds and the full device (C11, C12): once full, always full; at
      most 16 writes ever succeed, so stale pages are never reclaimed.
    - Finding (C5): on a full device an overwrite invalidates the old page
      before finding no free page, leaving the LBA mapped to a stale page
      whose data reads still serve; the design's invariant (C4) then fails.

    ** Integers, bounds, fuel

    C++ [int] is [Z].  The code does no arithmetic on LBAs or data; the only
    arithmetic is the address [b * 4 + p] and its decoding, whose values stay
    in [0, 16) on every reachable state (C14, C17), so no overflow or
    wrap-around arises and no width needs tracking.  Out-of-range vector
    access is undefined in C++; [page_at] reads a fresh page there and C14
    shows that the table never leads to it.  No fuel is needed: the loops
    run [for_first] with their constant bounds (4 iterations each) and every
    other recursion is structural.  Witnesses evaluate runs of at most 17
    calls with [vm_compute].

    ** Not modelled

    Garbage collection, victim selection, erase, wear leveling, trim, stats,
    the free-page watermark and the locking of the design are not in the
    source: the code only prints "Disk Full! Garbage Collection required.".
    [erase_count] exists but nothing changes it.  The spec's configuration
    (geometry at construction) is fixed by the constants.

    ** Plan for later sittings

    Extend the refinement to the printed write lines (addresses as the
    abstract allocation order), relate [render] to a parser of the output,
    state the page life cycle as a labelled transition system with the
    erase transition of the design and show the code never takes it, and
    model the design's garbage collector against the same contract as a
    separate specification-level component. *)

From stdpp Require Import base list gmap.
From Stdlib Require Import ZArith Lia.

(** Notation scope of the development: accessors that read like the
    C++ subscripts and the step relation are declared in it. *)
Declare Scope ftl_scope.
Delimit Scope ftl_scope with ftl.

(** Hint database for the lemmas that close the routine goals
    (ranges of indices, lengths after updates). *)
Create HintDb ftl discriminated.
Create Rewrite HintDb ftl_rw.

(** ** Bounded loops with early return

    [for (i = start; i < start + n; i++) { if (..) return ..; }] is modelled
    by [for_first f start n]: the first index [i] at which the body [f i]
    returns, with [None] when the loop runs to completion. *)
Fixpoint for_first {A} (f : Z -> option A) (i : Z) (n : nat) : option A :=
  match n with
  | O => None
  | S n' =>
      match f i with
      | Some a => Some a
      | None => for_first f (i + 1) n'
      end
  end.

(** Number of elements of a list on which a boolean test holds. *)
Definition count_true {A} (f : A -> bool) (l : list A) : nat :=
  sum_list_with (fun x => if f x then 1 else 0) l.

Ltac invc H := inversion H; subst; clear H.


(** ** Vectors indexed by a C++ [int]

    [v[i]] on a [std::vector] with an [int] index: [zlookup] reads it
    ([None] out of range, where C++ has undefined behaviour) and [zalter]
    updates the element in place (nothing out of range). *)
Definition zlookup {A} (l : list A) (i : Z) : option A :=
  if decide (0 <= i)%Z then l !! Z.to_nat i else None.

Definition zalter {A} (f : A -> A) (i : Z) (l : list A) : list A :=
  if decide (0 <= i)%Z then alter f (Z.to_nat i) l else l.

Section ZIndex.
Context {A : Type}.
Implicit Types (l : list A) (f : A -> A).

Lemma length_zalter f i l : length (zalter f i l) = length l.
Proof. unfold zalter. case_decide; [apply length_alter|done]. Qed.

Lemma zlookup_zalter f i j l :
  zlookup (zalter f i l) j =
  if decide (i = j) then f <$> zlookup l i else zlookup l j.
Proof.
  unfold zlookup, zalter.
  repeat case_decide; subst; try done; try lia.
  - by rewrite list_lookup_alter_eq.
  - rewrite list_lookup_alter_ne; [done|lia].
Qed.

Lemma zlookup_in_range l i :
  (0 <= i < Z.of_nat (length l))%Z -> exists x, zlookup l i = Some x.
Proof.
  intros Hi. unfold zlookup. case_decide; [|lia].
  apply lookup_lt_is_Some_2. lia.
Qed.

Lemma zlookup_replicate n (x y : A) i : zlookup (replicate n x) i = Some y -> y = x.
Proof. unfold zlookup. case_decide; [|done]. by intros [-> _]%lookup_replicate. Qed.

Lemma list_alter_insert_Some f (l : list A) i x :
  l !! i = Some x -> alter f i l = <[i:=f x]> l.
Proof.
  revert i; induction l as [|y l IH]; intros [|i] Hi; simplify_eq/=; [done|].
  by rewrite IH.
Qed.
End ZIndex.


Section Options.
Context {A : Type}.

Lemma if_Some_eq (c : bool) (x y : A) :
  (if c then Some x else None) = Some y <-> c = true /\ x = y.
Proof. destruct c; split; intros; naive_solver. Qed.

Lemma if_None_eq (c : bool) (x : A) :
  (if c then Some x else None) = None <-> c = false.
Proof. destruct c; naive_solver. Qed.
End Options.

#[export] Hint Rewrite @if_Some_eq @if_None_eq : ftl_rw.

Section ForFirst.
Context {A : Type} (f : Z -> option A).

Lemma for_first_None i n :
  for_first f i n = None <->
  forall k, (i <= k < i + Z.of_nat n)%Z -> f k = None.
Proof.
  revert i; induction n as [|n IH]; intros i; simpl.
  - split; [intros _ k Hk; lia | done].
  - destruct (f i) as [a|] eqn:Hi.
    + split; [done|]. intros H. rewrite H in Hi; [done|lia].
    + rewrite IH. split.
      * intros H k Hk. destruct (decide (k = i)) as [->|]; [done|]. apply H; lia.
      * intros H k Hk. apply H; lia.
Qed.

Lemma for_first_Some i n a :
  for_first f i n = Some a <->
  exists k, (i <= k < i + Z.of_nat n)%Z /\ f k = Some a /\
    forall j, (i <= j < k)%Z -> f j = None.
Proof.
  revert i; induction n as [|n IH]; intros i; simpl.
  - split; [done|]. intros (k & Hk & _); lia.
  - destruct (f i) as [b|] eqn:Hi.
    + split.
      * intros [= <-]. exists i. split; [lia|]. split; [done|]. intros j Hj; lia.
      * intros (k & Hk & Hfk & Hbefore).
        destruct (decide (k = i)) as [->|]; [congruence|].
        rewrite Hbefore in Hi; [done|lia].
    + rewrite IH. split.
      * intros (k & Hk & Hfk & Hbefore). exists k. split; [lia|]. split; [done|].
        intros j Hj. destruct (decide (j = i)) as [->|]; [done|]. apply Hbefore; lia.
      * intros (k & Hk & Hfk & Hbefore).
        destruct (decide (k = i)) as [->|]; [congruence|].
        exists k. split; [lia|]. split; [done|]. intros j Hj. apply Hbefore; lia.
Qed.
Lemma for_first_ext (g : Z -> option A) i n :
  (forall k, (i <= k < i + Z.of_nat n)%Z -> f k = g k) ->
  for_first f i n = for_first g i n.
Proof.
  revert i; induction n as [|n IH]; intros i Hfg; simpl; [done|].
  rewrite (Hfg i) by lia. destruct (g i); [done|]. apply IH. intros k Hk. apply Hfg. lia.
Qed.
End ForFirst.

Section Counting.
Context {A : Type}.

(** Replacing the element at a valid index changes a weighted sum by the
    difference of the weights; stated additively to stay in [nat]. *)
Lemma sum_list_with_insert (g : A -> nat) (l : list A) (i : nat) (x y : A) :
  l !! i = Some x ->
  sum_list_with g (<[i:=y]> l) + g x = sum_list_with g l + g y.
Proof.
  revert i; induction l as [|z l IH]; intros [|i] Hi; simplify_eq/=; [lia|].
  specialize (IH i Hi). lia.
Qed.

Lemma sum_list_with_zero (g : A -> nat) (l : list A) :
  sum_list_with g l = 0 <-> forall i x, l !! i = Some x -> g x = 0.
Proof.
  induction l as [|y l IH]; simpl.
  - split; [intros _ i x; by rewrite lookup_nil|done].
  - split.
    + intros Hz [|i] x Hx; simpl in Hx; [injection Hx as <-; lia|].
      apply (proj1 IH ltac:(lia) i x Hx).
    + intros Hall. assert (g y = 0) by (by apply (Hall 0%nat)).
      assert (sum_list_with g l = 0) by (apply IH; intros i x Hx; by apply (Hall (S i))).
      lia.
Qed.

Lemma count_true_zero (f : A -> bool) (l : list A) :
  count_true f l = 0 <-> forall i x, l !! i = Some x -> f x = false.
Proof.
  unfold count_true. rewrite sum_list_with_zero.
  split; intros H i x Hx; specialize (H i x Hx); by destruct (f x).
Qed.

Lemma count_true_insert (f : A -> bool) (l : list A) (i : nat) (x y : A) :
  l !! i = Some x ->
  count_true f (<[i:=y]> l) + (if f x then 1 else 0) =
  count_true f l + (if f y then 1 else 0).
Proof. apply sum_list_with_insert. Qed.
End Counting.

#[export] Hint Rewrite @length_zalter : ftl_rw.
