(* ===== verification/Geometry.v ===== *)
(** Geometry of the simulated flash (src/ftl.cpp lines 6-8) and the
    encoding of a (block, page) pair as one integer physical address
    (line 56) with its decoding by C++ truncating division (lines 69-70,
    80-81). *)

From stdpp Require Import base list.
From Stdlib Require Import ZArith Lia.
From S2P Require Import Prelude.

Module Geometry.
Open Scope Z_scope.

Definition TOTAL_BLOCKS : Z := 4.
Definition PAGES_PER_BLOCK : Z := 4.
Definition INVALID_ADDR : Z := -1.

(** [int physical_addr = (b * PAGES_PER_BLOCK) + p;] *)
Definition physical_addr (b p : Z) : Z := b * PAGES_PER_BLOCK + p.

(** [int b = phys_addr / PAGES_PER_BLOCK;] : C++ [/] on [int] truncates
    toward zero, which is [Z.quot]. *)
Definition addr_block (phys_addr : Z) : Z := Z.quot phys_addr PAGES_PER_BLOCK.

(** [int p = phys_addr % PAGES_PER_BLOCK;] : C++ [%] is [Z.rem]. *)
Definition addr_page (phys_addr : Z) : Z := Z.rem phys_addr PAGES_PER_BLOCK.

(** A block and page index inside the loops' bounds (lines 44 and 46). *)
Definition in_geometry (b p : Z) : Prop :=
  0 <= b < TOTAL_BLOCKS /\ 0 <= p < PAGES_PER_BLOCK.

(** A physical address naming a page of the device. *)
Definition valid_addr (a : Z) : Prop :=
  0 <= a < TOTAL_BLOCKS * PAGES_PER_BLOCK.

#[export] Instance in_geometry_dec b p : Decision (in_geometry b p).
Proof. unfold in_geometry. apply _. Defined.
#[export] Instance valid_addr_dec a : Decision (valid_addr a).
Proof. unfold valid_addr. apply _. Defined.

(** The quotient and remainder of a valid address are the Euclidean ones. *)
Lemma addr_block_div a : 0 <= a -> addr_block a = a / PAGES_PER_BLOCK.
Proof. intros. unfold addr_block. apply Z.quot_div_nonneg; [done|]. reflexivity. Qed.

Lemma addr_page_mod a : 0 <= a -> addr_page a = a mod PAGES_PER_BLOCK.
Proof. intros. unfold addr_page. apply Z.rem_mod_nonneg; [done|]. reflexivity. Qed.

Ltac unfold_geometry :=
  unfold in_geometry, valid_addr, physical_addr, TOTAL_BLOCKS, PAGES_PER_BLOCK in *.

(** decoding an encoded in-range (block, page) pair. *)
Lemma addr_decode_encode b p :
  in_geometry b p ->
  addr_block (physical_addr b p) = b /\ addr_page (physical_addr b p) = p.
Proof.
  intros Hg. pose proof Hg as [Hb Hp]. unfold_geometry.
  rewrite addr_block_div, addr_page_mod by lia. unfold PAGES_PER_BLOCK.
  split; [symmetry; apply Z.div_unique with p | symmetry; apply Z.mod_unique with b]; lia.
Qed.

Lemma addr_encode_decode a :
  valid_addr a ->
  in_geometry (addr_block a) (addr_page a) /\
  physical_addr (addr_block a) (addr_page a) = a.
Proof.
  intros Ha. unfold valid_addr in Ha.
  rewrite addr_block_div, addr_page_mod by lia. unfold_geometry.
  pose proof (Z.div_mod a 4 ltac:(lia)). pose proof (Z.mod_pos_bound a 4 ltac:(lia)).
  split; [split|]; [split; [apply Z.div_pos|apply Z.div_lt_upper_bound]| |]; lia.
Qed.

Lemma physical_addr_valid b p :
  in_geometry b p -> valid_addr (physical_addr b p).
Proof. unfold_geometry. lia. Qed.

(** The address order is the lexicographic order of the nested loops. *)
Lemma physical_addr_lt b p b' p' :
  in_geometry b p -> in_geometry b' p' ->
  physical_addr b p < physical_addr b' p' <-> b < b' \/ (b = b' /\ p < p').
Proof. unfold_geometry. lia. Qed.

(** C17: encoding an in-range (block, page) pair as [b * PAGES_PER_BLOCK + p]
    and decoding an address with C++ [/] and [%] are inverse bijections
    between the loops' index pairs and the valid physical addresses. *)
Theorem address_codec_roundtrip :
  (forall b p, in_geometry b p ->
     valid_addr (physical_addr b p) /\
     addr_block (physical_addr b p) = b /\ addr_page (physical_addr b p) = p) /\
  (forall a, valid_addr a ->
     in_geometry (addr_block a) (addr_page a) /\ physical_addr (addr_block a) (addr_page a) = a).
Proof.
  split.
  - intros b p Hg. split; [by apply physical_addr_valid|by apply addr_decode_encode].
  - apply addr_encode_decode.
Qed.

#[export] Hint Resolve physical_addr_valid : ftl.

End Geometry.
