(* ===== verification/Flash.v ===== *)
(** The page store: [struct PhysicalPage], [struct Block] and the
    [flash_memory] vector of src/ftl.cpp (lines 10-23, 28, 32), the page
    updates that [write_data] and [invalidate_old_page] perform in place
    (lines 51-53 and 71), and the first-fit linear search for a free page
    (lines 44-49). *)

From stdpp Require Import base list.
From Stdlib Require Import ZArith Lia.
From S2P Require Import Prelude Geometry.

Module Flash.
Import Geometry.
Open Scope Z_scope.

(** [struct PhysicalPage { int data = 0; bool is_valid = false; bool is_free = true; }] *)
Record PhysicalPage := mkPage {
  data : Z;
  is_valid : bool;
  is_free : bool
}.

Definition new_page : PhysicalPage :=
  {| data := 0; is_valid := false; is_free := true |}.

(** [struct Block { std::vector<PhysicalPage> pages; int erase_count = 0;
    Block() : pages(PAGES_PER_BLOCK) {} }] *)
Record Block := mkBlock {
  pages : list PhysicalPage;
  erase_count : Z
}.

Definition new_block : Block :=
  {| pages := replicate (Z.to_nat PAGES_PER_BLOCK) new_page; erase_count := 0 |}.

(** [std::vector<Block> flash_memory] as built by [flash_memory(TOTAL_BLOCKS)]. *)
Definition new_flash : list Block := replicate (Z.to_nat TOTAL_BLOCKS) new_block.

(** [flash_memory[b].pages[p]]; out of range (undefined in C++) it reads as
    a fresh page, which the invariants of the development rule out. *)
Definition page_at (fm : list Block) (b p : Z) : PhysicalPage :=
  default new_page (zlookup fm b ≫= fun blk => zlookup (pages blk) p).

Notation "fm @[ b , p ]" := (page_at fm b p)
  (at level 1, b at level 200, p at level 200, format "fm @[ b ,  p ]") : ftl_scope.
Open Scope ftl_scope.

(** In-place update of [flash_memory[b].pages[p]]. *)
Definition update_page (f : PhysicalPage -> PhysicalPage) (b p : Z) (fm : list Block)
    : list Block :=
  zalter (fun blk => {| pages := zalter f p (pages blk);
                        erase_count := erase_count blk |}) b fm.

(** Lines 51-53: [pages[p].data = data; pages[p].is_valid = true;
    pages[p].is_free = false;] *)
Definition program_page (d : Z) (pg : PhysicalPage) : PhysicalPage :=
  {| data := d; is_valid := true; is_free := false |}.

(** Line 71: [pages[p].is_valid = false;] (data and [is_free] untouched). *)
Definition clear_valid (pg : PhysicalPage) : PhysicalPage :=
  {| data := data pg; is_valid := false; is_free := is_free pg |}.

(** Lines 46-49, inner loop: [for (p = 0; p < PAGES_PER_BLOCK; p++)
    if (flash_memory[b].pages[p].is_free) ...]. *)
Definition scan_block (fm : list Block) (b : Z) : option (Z * Z) :=
  for_first (fun p => if is_free (fm @[b, p]) then Some (b, p) else None)
    0 (Z.to_nat PAGES_PER_BLOCK).

(** Lines 44-49, outer loop over the blocks: the first free page in
    block-major order, [None] when the loops complete ("Disk Full"). *)
Definition find_free_page (fm : list Block) : option (Z * Z) :=
  for_first (scan_block fm) 0 (Z.to_nat TOTAL_BLOCKS).

(** The shape the constructors give: [TOTAL_BLOCKS] blocks of
    [PAGES_PER_BLOCK] pages. *)
Definition shape_ok (fm : list Block) : Prop :=
  length fm = Z.to_nat TOTAL_BLOCKS /\
  Forall (fun blk => length (pages blk) = Z.to_nat PAGES_PER_BLOCK) fm.

(** Number of pages on which a flag [t] ([is_free], [is_valid]) is set. *)
Definition count_pages (t : PhysicalPage -> bool) (fm : list Block) : nat :=
  sum_list_with (fun blk => count_true t (pages blk)) fm.

(** The page at a physical address, decoded as [invalidate_old_page] and
    [read_data] decode it, and the in-place update of that page. *)
Definition page_of (fm : list Block) (a : Z) : PhysicalPage :=
  fm @[addr_block a, addr_page a].
Definition update_addr (f : PhysicalPage -> PhysicalPage) (a : Z) (fm : list Block)
    : list Block :=
  update_page f (addr_block a) (addr_page a) fm.

(** Reference search: the lowest free address of the flat address space. *)
Definition first_free_addr (fm : list Block) : option Z :=
  for_first (fun a => if is_free (page_of fm a) then Some a else None)
    0 (Z.to_nat (TOTAL_BLOCKS * PAGES_PER_BLOCK)).

(** The three page states of the design (free, valid, stale) read off the
    two flags; the fourth combination is never produced by the code. *)
Inductive PageState := PFree | PValid | PStale | PFreeValid.

Definition page_state (pg : PhysicalPage) : PageState :=
  match is_free pg, is_valid pg with
  | true, false => PFree
  | false, true => PValid
  | false, false => PStale
  | true, true => PFreeValid
  end.

(** ** Lemmas on the page store *)

Lemma shape_ok_new_flash : shape_ok new_flash.
Proof. split; [reflexivity|]. repeat (constructor; [reflexivity|]). constructor. Qed.

Lemma shape_ok_update f b p fm : shape_ok fm -> shape_ok (update_page f b p fm).
Proof.
  intros [Hlen Hall]. split.
  - unfold update_page. by rewrite length_zalter.
  - unfold update_page, zalter at 1. case_decide; [|done].
    apply Forall_alter; [done|].
    intros blk _ Hblk. cbn [pages]. by rewrite length_zalter.
Qed.

(** Every in-range page exists in a well-shaped store. *)
Lemma page_at_lookup fm b p :
  shape_ok fm -> in_geometry b p ->
  exists blk, zlookup fm b = Some blk /\ zlookup (pages blk) p = Some (fm @[b, p]).
Proof.
  intros [Hlen Hall] [Hb Hp].
  destruct (zlookup_in_range fm b) as [blk Hblk]; [unfold TOTAL_BLOCKS in *; lia|].
  assert (length (pages blk) = Z.to_nat PAGES_PER_BLOCK) as Hpl.
  { unfold zlookup in Hblk. case_decide; [|done].
    eapply Forall_lookup_1 in Hall; eauto. }
  destruct (zlookup_in_range (pages blk) p) as [pg Hpg]; [unfold PAGES_PER_BLOCK in *; lia|].
  exists blk. unfold page_at. rewrite Hblk; simpl; by rewrite Hpg.
Qed.

Lemma page_at_update_ne f b p b' p' fm :
  (b, p) <> (b', p') -> (update_page f b p fm) @[b', p'] = fm @[b', p'].
Proof.
  intros Hne. unfold page_at, update_page. rewrite zlookup_zalter.
  case_decide as Hb; [subst b'|done].
  destruct (zlookup fm b) as [blk|]; simpl; [|done].
  rewrite zlookup_zalter. case_decide; [congruence|done].
Qed.

Lemma page_at_update_eq f b p fm :
  shape_ok fm -> in_geometry b p ->
  (update_page f b p fm) @[b, p] = f (fm @[b, p]).
Proof.
  intros Hs Hg. destruct (page_at_lookup fm b p Hs Hg) as (blk & Hblk & Hpg).
  unfold page_at at 1, update_page. rewrite zlookup_zalter, decide_True, Hblk by done.
  simpl. rewrite zlookup_zalter, decide_True, Hpg by done. done.
Qed.

Lemma page_at_update f b p b' p' fm :
  shape_ok fm -> in_geometry b p ->
  (update_page f b p fm) @[b', p'] =
  if decide ((b, p) = (b', p')) then f (fm @[b, p]) else fm @[b', p'].
Proof.
  intros Hs Hg. case_decide as Heq.
  - injection Heq as <- <-. by apply page_at_update_eq.
  - by apply page_at_update_ne.
Qed.

(** Updating one page changes the count of free pages by that page only. *)
Lemma count_pages_update t f b p fm :
  shape_ok fm -> in_geometry b p ->
  (count_pages t (update_page f b p fm) + (if t (fm @[b, p]) then 1 else 0) =
   count_pages t fm + (if t (f (fm @[b, p])) then 1 else 0))%nat.
Proof.
  intros Hs Hg. destruct (page_at_lookup fm b p Hs Hg) as (blk & Hblk & Hpg).
  destruct Hg as [Hb Hp].
  unfold zlookup in Hblk, Hpg.
  rewrite decide_True in Hblk by lia. rewrite decide_True in Hpg by lia.
  unfold count_pages, update_page, zalter. rewrite !decide_True by lia.
  rewrite (list_alter_insert_Some _ fm _ blk) by done.
  rewrite decide_True by lia.
  rewrite (list_alter_insert_Some f (pages blk) _ (fm @[b, p])) by done.
  pose proof (sum_list_with_insert (fun blk => count_true t (pages blk)) fm
                (Z.to_nat b) blk
                {| pages := <[Z.to_nat p := f (fm @[b, p])]> (pages blk);
                   erase_count := erase_count blk |} Hblk) as Hout.
  pose proof (count_true_insert t (pages blk) (Z.to_nat p) _ (f (fm @[b, p])) Hpg).
  simpl in Hout. lia.
Qed.

(** ** The first-fit search *)

Lemma scan_block_None fm b :
  scan_block fm b = None <->
  forall p, 0 <= p < PAGES_PER_BLOCK -> is_free (fm @[b, p]) = false.
Proof.
  unfold scan_block. rewrite for_first_None.
  setoid_rewrite if_None_eq. unfold PAGES_PER_BLOCK. done.
Qed.

Lemma scan_block_Some fm b b' p :
  scan_block fm b = Some (b', p) <->
  b' = b /\ 0 <= p < PAGES_PER_BLOCK /\ is_free (fm @[b, p]) = true /\
  forall q, 0 <= q < p -> is_free (fm @[b, q]) = false.
Proof.
  unfold scan_block. rewrite for_first_Some.
  setoid_rewrite if_Some_eq. setoid_rewrite if_None_eq.
  unfold PAGES_PER_BLOCK. simpl. split.
  - intros (k & Hk & [Hf Heq] & Hbefore). injection Heq as <- <-. naive_solver lia.
  - intros (-> & Hp & Hf & Hbefore). exists p. naive_solver lia.
Qed.

(** The search returns the free page of lowest physical address. *)
Lemma find_free_page_Some fm b p :
  find_free_page fm = Some (b, p) <->
  in_geometry b p /\ is_free (fm @[b, p]) = true /\
  forall b' p', in_geometry b' p' -> physical_addr b' p' < physical_addr b p ->
                is_free (fm @[b', p']) = false.
Proof.
  unfold find_free_page. rewrite for_first_Some. split.
  - intros (k & Hk & Hscan & Hbefore).
    apply scan_block_Some in Hscan as (-> & Hp & Hf & Hq).
    split; [unfold in_geometry, TOTAL_BLOCKS in *; lia|]. split; [done|].
    intros b' p' Hg' Hlt. apply physical_addr_lt in Hlt as [Hb|[-> Hpq]];
      [| |unfold in_geometry, TOTAL_BLOCKS in *; lia|done].
    + eapply scan_block_None; [apply Hbefore|]; unfold in_geometry in *; lia.
    + apply Hq. unfold in_geometry in *; lia.
  - intros (Hg & Hf & Hmin). exists b.
    split; [unfold in_geometry, TOTAL_BLOCKS in *; simpl; lia|]. split.
    + apply scan_block_Some. split; [done|]. split; [apply Hg|]. split; [done|].
      intros q Hq. apply Hmin; [unfold in_geometry in *; lia|].
      apply physical_addr_lt; [unfold in_geometry in *; lia|done|]. lia.
    + intros j Hj. apply scan_block_None. intros q Hq. apply Hmin;
        [unfold in_geometry in *; lia|].
      apply physical_addr_lt; [unfold in_geometry in *; lia|done|]. lia.
Qed.

Lemma find_free_page_None fm :
  find_free_page fm = None <->
  forall b p, in_geometry b p -> is_free (fm @[b, p]) = false.
Proof.
  unfold find_free_page. rewrite for_first_None. setoid_rewrite scan_block_None.
  unfold in_geometry, TOTAL_BLOCKS. simpl. naive_solver lia.
Qed.

(** ** Addresses *)

Lemma page_of_update_addr f a a' fm :
  shape_ok fm -> valid_addr a -> valid_addr a' ->
  page_of (update_addr f a fm) a' = if decide (a = a') then f (page_of fm a) else page_of fm a'.
Proof.
  intros Hs Ha Ha'. unfold page_of, update_addr.
  destruct (addr_encode_decode a Ha) as [Hg Ha1].
  destruct (addr_encode_decode a' Ha') as [Hg' Ha1'].
  rewrite page_at_update by done. apply decide_ext. split.
  - intros [= Hb Hp]. by rewrite <- Ha1, <- Ha1', Hb, Hp.
  - by intros ->.
Qed.

Lemma update_page_addr f b p fm :
  in_geometry b p -> update_page f b p fm = update_addr f (physical_addr b p) fm.
Proof.
  intros Hg. unfold update_addr. by destruct (addr_decode_encode b p Hg) as [-> ->].
Qed.

Lemma page_at_addr fm b p :
  in_geometry b p -> fm @[b, p] = page_of fm (physical_addr b p).
Proof.
  intros Hg. unfold page_of. by destruct (addr_decode_encode b p Hg) as [-> ->].
Qed.

Lemma shape_ok_update_addr f a fm : shape_ok fm -> shape_ok (update_addr f a fm).
Proof. apply shape_ok_update. Qed.

Lemma count_pages_update_addr t f a fm :
  shape_ok fm -> valid_addr a ->
  (count_pages t (update_addr f a fm) + (if t (page_of fm a) then 1 else 0) =
   count_pages t fm + (if t (f (page_of fm a)) then 1 else 0))%nat.
Proof.
  intros Hs Ha. apply count_pages_update; [done|]. apply addr_encode_decode, Ha.
Qed.

(** The search, read at the level of addresses: it returns a free page. *)
Lemma find_free_page_addr fm b p :
  find_free_page fm = Some (b, p) ->
  in_geometry b p /\ valid_addr (physical_addr b p) /\
  is_free (page_of fm (physical_addr b p)) = true.
Proof.
  intros (Hg & Hf & _)%find_free_page_Some.
  split; [done|]. split; [by apply physical_addr_valid|]. by rewrite <- page_at_addr.
Qed.

Lemma find_free_page_None_addr fm a :
  find_free_page fm = None -> valid_addr a -> is_free (page_of fm a) = false.
Proof.
  intros HN Ha. rewrite find_free_page_None in HN.
  unfold page_of. apply HN, addr_encode_decode, Ha.
Qed.

(** The search reads nothing but the [is_free] flags of in-range pages. *)
Lemma find_free_page_ext fm fm' :
  (forall b p, in_geometry b p -> is_free (fm @[b, p]) = is_free (fm' @[b, p])) ->
  find_free_page fm = find_free_page fm'.
Proof.
  intros Hfree. unfold find_free_page. apply for_first_ext. intros b Hb.
  unfold scan_block. apply for_first_ext. intros p Hp.
  rewrite Hfree; [done|]. unfold in_geometry, TOTAL_BLOCKS, PAGES_PER_BLOCK in *. lia.
Qed.

Lemma find_free_page_clear_valid a fm :
  shape_ok fm -> valid_addr a ->
  find_free_page (update_addr clear_valid a fm) = find_free_page fm.
Proof.
  intros Hs Ha. apply find_free_page_ext. intros b p Hg.
  rewrite !page_at_addr by done. rewrite page_of_update_addr by auto with ftl.
  by case_decide; subst.
Qed.

(** Every page of a fresh device is a fresh page. *)
Lemma page_at_new_flash b p : new_flash @[b, p] = new_page.
Proof.
  unfold page_at. destruct (zlookup new_flash b) as [blk|] eqn:E; [|done]. simpl.
  apply zlookup_replicate in E as ->.
  destruct (zlookup (pages new_block) p) as [pg|] eqn:E; [|done]. simpl.
  by apply zlookup_replicate in E as ->.
Qed.

(** No in-range page carries the flag exactly when the count is zero. *)
Lemma count_pages_zero t fm :
  shape_ok fm ->
  count_pages t fm = 0%nat <-> forall b p, in_geometry b p -> t (fm @[b, p]) = false.
Proof.
  intros Hs. unfold count_pages. rewrite sum_list_with_zero.
  setoid_rewrite count_true_zero. split.
  - intros Hz b p Hg. destruct (page_at_lookup fm b p Hs Hg) as (blk & Hblk & Hpg).
    unfold zlookup in Hblk, Hpg. case_decide; [|done]. case_decide; [|done].
    by apply (Hz _ _ Hblk _ _ Hpg).
  - intros Hall i blk Hblk j pg Hpg. destruct Hs as [Hlen Hpl].
    pose proof (lookup_lt_Some _ _ _ Hblk) as Hi.
    pose proof (lookup_lt_Some _ _ _ Hpg) as Hj.
    rewrite (Forall_lookup_1 _ _ _ _ Hpl Hblk) in Hj.
    assert (Hg : in_geometry (Z.of_nat i) (Z.of_nat j)).
    { unfold in_geometry, TOTAL_BLOCKS, PAGES_PER_BLOCK in *. simpl in *. lia. }
    specialize (Hall _ _ Hg). unfold page_at, zlookup in Hall.
    rewrite !decide_True, !Nat2Z.id in Hall by lia. rewrite Hblk in Hall. simpl in Hall. rewrite decide_True, Hpg in Hall by lia. done.
Qed.

Lemma find_free_page_count fm :
  shape_ok fm ->
  (match find_free_page fm with Some _ => true | None => false end) = true <->
  count_pages is_free fm <> 0%nat.
Proof.
  intros Hs. rewrite count_pages_zero by done. rewrite <- find_free_page_None.
  destruct (find_free_page fm); naive_solver.
Qed.

(** C8: the nested block/page loops compute the reference flat search:
    the physical address of the page they return is the lowest free
    address, and they fail exactly when it does. *)
Theorem find_free_page_first_free_addr fm :
  (fun bp => physical_addr bp.1 bp.2) <$> find_free_page fm = first_free_addr fm.
Proof.
  unfold first_free_addr. symmetry.
  destruct (find_free_page fm) as [[b p]|] eqn:Hf.
  - transitivity (Some (physical_addr b p)); [|done].
    apply find_free_page_Some in Hf as (Hg & Hfree & Hmin).
    apply for_first_Some. exists (physical_addr b p).
    pose proof (physical_addr_valid b p Hg) as Hv. unfold valid_addr in Hv.
    split; [simpl; lia|]. split.
    + apply if_Some_eq. split; [by rewrite <- page_at_addr|done].
    + intros j Hj. apply if_None_eq.
      assert (Hvj : valid_addr j) by (unfold valid_addr; lia).
      destruct (addr_encode_decode j Hvj) as [Hgj Hej].
      unfold page_of. apply Hmin; [done|]. rewrite Hej. lia.
  - transitivity (@None Z); [|done].
    apply for_first_None. intros k Hk. apply if_None_eq.
    apply find_free_page_None_addr; [done|]. unfold valid_addr. simpl in Hk. lia.
Qed.

#[export] Hint Resolve shape_ok_update shape_ok_update_addr : ftl.

End Flash.
