(* ===== verification/Mapping.v ===== *)
(** The logical-to-physical table [std::map<int, int> l2p_table] of
    src/ftl.cpp (line 29) and the three [std::map] operations the code
    applies to it: [count] (lines 38 and 77), the subscript read
    [l2p_table[lba]] (lines 40 and 79), which inserts a zero when the key
    is missing, and the subscript assignment (line 57).  The address map
    of the design is this table; its injectivity is stated here. *)

From stdpp Require Import base list gmap.
From Stdlib Require Import ZArith Lia.
From S2P Require Import Prelude.

Module StdMap.
Open Scope Z_scope.

(** [m.count(k)] as a boolean ([std::map] keys are unique: 0 or 1). *)
Definition count (k : Z) (m : gmap Z Z) : bool :=
  match m !! k with Some _ => true | None => false end.

(** [m[k]] as an rvalue: the stored value, or a value-initialised [0]
    that [operator[]] inserts first when [k] is absent. *)
Definition subscript (k : Z) (m : gmap Z Z) : Z * gmap Z Z :=
  match m !! k with
  | Some v => (v, m)
  | None => (0, <[k := 0]> m)
  end.

(** [m[k] = v]. *)
Definition assign (k v : Z) (m : gmap Z Z) : gmap Z Z := <[k := v]> m.

(** No two keys of the table hold the same value. *)
Definition injective (m : gmap Z Z) : Prop :=
  forall k1 k2 v, m !! k1 = Some v -> m !! k2 = Some v -> k1 = k2.

(** [v] is the value of some key. *)
Definition maps_to (m : gmap Z Z) (v : Z) : Prop := exists k, m !! k = Some v.

(** Guarded by [count], the subscript read leaves the table unchanged. *)
Lemma subscript_present k m v : m !! k = Some v -> subscript k m = (v, m).
Proof. intros H. unfold subscript. by rewrite H. Qed.

(** Assigning a value no key holds keeps the table injective, whether the
    key was bound before (overwrite) or not. *)
Lemma injective_assign k v m :
  injective m -> ~ maps_to m v -> injective (assign k v m).
Proof.
  unfold injective, assign, maps_to. intros Hinj Hfresh k1 k2 w H1 H2.
  rewrite lookup_insert in H1, H2.
  repeat case_decide; simplify_eq; eauto; naive_solver.
Qed.

End StdMap.
