(* ===== verification/Ftl.v ===== *)
(** The [FTL_Simulator] class of src/ftl.cpp (lines 25-89): its state
    (the flash array and the L2P table), its three methods [write_data],
    [invalidate_old_page] and [read_data], and what they print.  Every
    method takes the simulator and returns the updated simulator with the
    lines it wrote to [std::cout], as [Event]s in output order. *)

From stdpp Require Import base list gmap strings.
From Stdlib Require Import ZArith Lia.
From S2P Require Import Prelude Geometry Flash Mapping.

Module Ftl.
Import Geometry Flash.
Open Scope Z_scope.
Open Scope ftl_scope.

(** [class FTL_Simulator { std::vector<Block> flash_memory;
    std::map<int, int> l2p_table; }] *)
Record FTL_Simulator := mkFTL {
  flash_memory : list Block;
  l2p_table : gmap Z Z
}.

(** [FTL_Simulator() : flash_memory(TOTAL_BLOCKS) {}] *)
Definition init : FTL_Simulator :=
  {| flash_memory := new_flash; l2p_table := ∅ |}.

(** One line written to [std::cout]. *)
Inductive Event :=
  | EvWritten (lba phys_addr : Z)   (** ["LBA " lba " written to Physical Addr " addr] *)
  | EvInvalidated (phys_addr : Z)   (** ["  [Info] Physical Addr " addr " marked INVALID (stale)."] *)
  | EvDiskFull                      (** ["Disk Full! Garbage Collection required."] *)
  | EvRead (lba value : Z)          (** ["Read LBA " lba " -> Value: " value] *)
  | EvNotFound (lba : Z)            (** ["LBA " lba " not found!"] *)
  | EvBanner (text : string).       (** the step banners of [main] *)

#[export] Instance Event_eq_dec : EqDecision Event.
Proof. solve_decision. Defined.

Definition set_flash (fm : list Block) (s : FTL_Simulator) : FTL_Simulator :=
  {| flash_memory := fm; l2p_table := l2p_table s |}.
Definition set_l2p (m : gmap Z Z) (s : FTL_Simulator) : FTL_Simulator :=
  {| flash_memory := flash_memory s; l2p_table := m |}.

(** [void invalidate_old_page(int phys_addr)] (lines 67-73). *)
Definition invalidate_old_page (phys_addr : Z) (s : FTL_Simulator)
    : FTL_Simulator * list Event :=
  let b := addr_block phys_addr in
  let p := addr_page phys_addr in
  (set_flash (update_page clear_valid b p (flash_memory s)) s,
   [EvInvalidated phys_addr]).

(** Step 1 of [write_data] (lines 37-41): [if (l2p_table.count(lba))
    invalidate_old_page(l2p_table[lba]);] *)
Definition invalidate_mapping (lba : Z) (s : FTL_Simulator) : FTL_Simulator * list Event :=
  if StdMap.count lba (l2p_table s) then
    let '(old, m) := StdMap.subscript lba (l2p_table s) in
    invalidate_old_page old (set_l2p m s)
  else (s, []).

(** Step 2 of [write_data] (lines 43-64): the first free page is
    programmed with [d] and [lba] is pointed at it, or "Disk Full!" is
    printed and nothing else changes. *)
Definition program_free_page (lba d : Z) (s1 : FTL_Simulator) (out1 : list Event)
    : FTL_Simulator * list Event :=
  match find_free_page (flash_memory s1) with
  | Some (b, p) =>
      let fm := update_page (program_page d) b p (flash_memory s1) in
      let addr := physical_addr b p in
      ({| flash_memory := fm; l2p_table := StdMap.assign lba addr (l2p_table s1) |},
       out1 ++ [EvWritten lba addr])
  | None => (s1, out1 ++ [EvDiskFull])
  end.

(** [void write_data(int lba, int data)] (lines 35-65): step 1 then step 2,
    in this order. *)
Definition write_data (lba d : Z) (s : FTL_Simulator) : FTL_Simulator * list Event :=
  let '(s1, out1) := invalidate_mapping lba s in
  program_free_page lba d s1 out1.

(** [void read_data(int lba)] (lines 75-88). *)
Definition read_data (lba : Z) (s : FTL_Simulator) : FTL_Simulator * list Event :=
  if StdMap.count lba (l2p_table s) then
    let '(phys_addr, m) := StdMap.subscript lba (l2p_table s) in
    let b := addr_block phys_addr in
    let p := addr_page phys_addr in
    (set_l2p m s, [EvRead lba (data ((flash_memory s) @[b, p]))])
  else (s, [EvNotFound lba]).

(** The value [read_data] prints for [lba], [None] for "not found". *)
Definition read_result (lba : Z) (s : FTL_Simulator) : option Z :=
  match (read_data lba s).2 with
  | [EvRead _ v] => Some v
  | _ => None
  end.

(** Whether [write_data] finds a free page in [s]. *)
Definition has_free_page (s : FTL_Simulator) : bool :=
  match find_free_page (flash_memory s) with Some _ => true | None => false end.

(** A call of a public method of [FTL_Simulator]. *)
Inductive Op :=
  | OpWrite (lba d : Z)
  | OpRead (lba : Z).

Definition exec (op : Op) (s : FTL_Simulator) : FTL_Simulator * list Event :=
  match op with
  | OpWrite lba d => write_data lba d s
  | OpRead lba => read_data lba s
  end.

(** The calls in order, the state threaded through, the output appended. *)
Fixpoint run (ops : list Op) (s : FTL_Simulator) : FTL_Simulator * list Event :=
  match ops with
  | [] => (s, [])
  | op :: ops' =>
      let '(s1, out1) := exec op s in
      let '(s2, out2) := run ops' s1 in
      (s2, out1 ++ out2)
  end.

(** The calls [main] makes, and sixteen writes that fill the device. *)
Definition main_ops : list Op := [OpWrite 10 500; OpWrite 20 700; OpWrite 10 501].
Definition fill_ops : list Op :=
  map (fun i => OpWrite (Z.of_nat i) (100 + Z.of_nat i)) (seq 0 16).

End Ftl.
