(* ===== verification/Invariants.v ===== *)
(** Invariants of the simulator state and their preservation by the
    methods of src/ftl.cpp.  [wf] holds after every call whatever the
    inputs; [consistent] (every mapped page is valid) is the design's
    address-map invariant, which [write_data] keeps only while a free page
    is left. *)

From stdpp Require Import base list gmap strings.
From Stdlib Require Import ZArith Lia.
From S2P Require Import Prelude Geometry Flash Mapping Ftl.

Module Invariants.
Import Geometry Flash Ftl.
Open Scope Z_scope.
Open Scope ftl_scope.

Record wf (s : FTL_Simulator) : Prop := {
  wf_shape : shape_ok (flash_memory s);
  (** the flag combination "free and valid" never occurs *)
  wf_free_not_valid : forall a, valid_addr a ->
    is_free (page_of (flash_memory s) a) = true ->
    is_valid (page_of (flash_memory s) a) = false;
  wf_mapped_addr : forall lba a, l2p_table s !! lba = Some a -> valid_addr a;
  (** a mapped page has been programmed *)
  wf_mapped_not_free : forall lba a, l2p_table s !! lba = Some a ->
    is_free (page_of (flash_memory s) a) = false;
  (** no two LBAs share a physical page *)
  wf_injective : StdMap.injective (l2p_table s);
  (** every valid page belongs to some LBA *)
  wf_valid_mapped : forall a, valid_addr a ->
    is_valid (page_of (flash_memory s) a) = true -> StdMap.maps_to (l2p_table s) a
}.

(** The address map of the design: the page of every mapped LBA is valid. *)
Definition consistent (s : FTL_Simulator) : Prop :=
  forall lba a, l2p_table s !! lba = Some a -> is_valid (page_of (flash_memory s) a) = true.

#[export] Hint Resolve wf_shape wf_mapped_addr : ftl.

(** Rewrite reads of updated pages, splitting on the address. *)
Ltac page_cases :=
  repeat (rewrite page_of_update_addr in * by eauto with ftl);
  repeat case_decide; simplify_eq/=; try done.

(** Step 1 on a mapped LBA: the old page loses its valid flag. *)
Lemma invalidate_mapping_mapped s lba a :
  l2p_table s !! lba = Some a ->
  invalidate_mapping lba s =
    (set_flash (update_addr clear_valid a (flash_memory s)) s, [EvInvalidated a]).
Proof.
  intros Ha. unfold invalidate_mapping, StdMap.count.
  rewrite Ha, (StdMap.subscript_present _ _ a Ha). by destruct s.
Qed.

Lemma invalidate_mapping_unmapped s lba :
  l2p_table s !! lba = None -> invalidate_mapping lba s = (s, []).
Proof. intros Ha. unfold invalidate_mapping, StdMap.count. by rewrite Ha. Qed.


Section Phases.
Context (s : FTL_Simulator) (Hwf : wf s).

Lemma wf_clear_valid lba a :
  l2p_table s !! lba = Some a ->
  wf (set_flash (update_addr clear_valid a (flash_memory s)) s).
Proof.
  intros Ha. pose proof (wf_mapped_addr s Hwf lba a Ha) as Hva.
  destruct Hwf as [Hs Hfv Hma Hmf Hinj Hvm]. split; simpl; eauto with ftl.
  - intros a' Ha'. page_cases; eauto.
  - intros lba' a' Ha'. page_cases; eauto.
  - intros a' Ha'. page_cases; eauto.
Qed.

(** Step 2 when a free page is found, from a state where the page of
    [lba] (if any) is no longer valid. *)
Lemma wf_program lba d b p :
  (forall a, l2p_table s !! lba = Some a ->
             is_valid (page_of (flash_memory s) a) = false) ->
  find_free_page (flash_memory s) = Some (b, p) ->
  wf {| flash_memory := update_page (program_page d) b p (flash_memory s);
        l2p_table := StdMap.assign lba (physical_addr b p) (l2p_table s) |}.
Proof.
  intros Hold (Hg & Hv0 & Hfree0)%find_free_page_addr.
  rewrite update_page_addr by done. set (a0 := physical_addr b p) in *.
  assert (Hfresh : ~ StdMap.maps_to (l2p_table s) a0).
  { intros [k Hk]. pose proof (wf_mapped_not_free s Hwf k a0 Hk). congruence. }
  destruct Hwf as [Hs Hfv Hma Hmf Hinj Hvm]. split; simpl; eauto with ftl.
  - intros a' Ha'. page_cases; eauto.
  - intros lba' a'. unfold StdMap.assign. rewrite lookup_insert.
    case_decide; intros; simplify_eq; eauto.
  - intros lba' a'. unfold StdMap.assign. rewrite lookup_insert.
    case_decide; intros Ha'; simplify_eq; page_cases; eauto.
  - by apply StdMap.injective_assign.
  - intros a' Ha' Hval. page_cases.
    + exists lba. apply lookup_insert_eq.
    + destruct (Hvm a' Ha' Hval) as [k Hk].
      destruct (decide (k = lba)) as [->|Hne]; [rewrite (Hold a') in Hval; done|].
      exists k. unfold StdMap.assign. by rewrite lookup_insert_ne.
Qed.
End Phases.

(** Step 1 never changes the table: the subscript read is guarded by
    [count]. *)
Lemma invalidate_mapping_l2p lba s :
  l2p_table (invalidate_mapping lba s).1 = l2p_table s.
Proof.
  unfold invalidate_mapping, StdMap.count.
  destruct (l2p_table s !! lba) as [a|] eqn:Ha; [|done].
  by rewrite (StdMap.subscript_present _ _ a Ha).
Qed.

Lemma invalidate_mapping_wf lba s : wf s -> wf (invalidate_mapping lba s).1.
Proof.
  intros Hwf. destruct (l2p_table s !! lba) as [a|] eqn:Ha.
  - rewrite (invalidate_mapping_mapped s lba a) by done. simpl. by eapply wf_clear_valid.
  - by rewrite invalidate_mapping_unmapped.
Qed.

(** Step 1 leaves every [is_free] flag, hence the search, as it was. *)
Lemma invalidate_mapping_find_free lba s :
  wf s ->
  find_free_page (flash_memory (invalidate_mapping lba s).1) = find_free_page (flash_memory s).
Proof.
  intros Hwf. destruct (l2p_table s !! lba) as [a|] eqn:Ha.
  - rewrite (invalidate_mapping_mapped s lba a) by done. apply find_free_page_clear_valid; eauto with ftl.
  - by rewrite invalidate_mapping_unmapped.
Qed.

(** After step 1 the page of [lba], if any, is not valid. *)
Lemma invalidate_mapping_old_invalid lba s a :
  wf s -> l2p_table s !! lba = Some a ->
  is_valid (page_of (flash_memory (invalidate_mapping lba s).1) a) = false.
Proof.
  intros Hwf Ha. rewrite (invalidate_mapping_mapped s lba a) by done. simpl. page_cases.
Qed.

(** Step 1 touches at most the page of [lba]. *)
Lemma invalidate_mapping_page_other lba s a' :
  wf s -> valid_addr a' -> l2p_table s !! lba <> Some a' ->
  page_of (flash_memory (invalidate_mapping lba s).1) a' = page_of (flash_memory s) a'.
Proof.
  intros Hwf Ha' Hne. destruct (l2p_table s !! lba) as [a|] eqn:Ha.
  - rewrite (invalidate_mapping_mapped s lba a) by done. simpl. page_cases.
  - by rewrite invalidate_mapping_unmapped.
Qed.

Theorem write_data_wf lba d s : wf s -> wf (write_data lba d s).1.
Proof.
  intros Hwf. unfold write_data.
  pose proof (invalidate_mapping_wf lba s Hwf) as Hwf1.
  pose proof (invalidate_mapping_l2p lba s) as Hl2p.
  pose proof (invalidate_mapping_old_invalid lba s) as Hold.
  destruct (invalidate_mapping lba s) as [s1 out1]; simpl in *.
  unfold program_free_page.
  destruct (find_free_page (flash_memory s1)) as [[b p]|] eqn:Hfree; [|done].
  apply wf_program; [done| |done].
  intros a Ha. rewrite Hl2p in Ha. by apply Hold.
Qed.

(** [read_data] never changes the simulator: [l2p_table[lba]] is only
    evaluated under [l2p_table.count(lba)], so [operator[]] never inserts. *)
Theorem read_data_state lba s : (read_data lba s).1 = s.
Proof.
  unfold read_data, StdMap.count.
  destruct (l2p_table s !! lba) as [a|] eqn:Ha; [|done].
  rewrite (StdMap.subscript_present _ _ a Ha). by destruct s.
Qed.

Lemma read_data_wf lba s : wf s -> wf (read_data lba s).1.
Proof. by rewrite read_data_state. Qed.

(** Step 2 leaves alone every page but the one it programs. *)
Lemma program_page_other s lba a d b p :
  wf s -> find_free_page (flash_memory s) = Some (b, p) ->
  l2p_table s !! lba = Some a ->
  page_of (update_page (program_page d) b p (flash_memory s)) a = page_of (flash_memory s) a.
Proof.
  intros Hwf Hf Ha. apply find_free_page_addr in Hf as (Hg & Hv0 & Hfree0).
  pose proof (wf_mapped_not_free s Hwf lba a Ha).
  rewrite update_page_addr by done. page_cases; congruence.
Qed.

Lemma program_page_new s d b p :
  wf s -> in_geometry b p ->
  page_of (update_page (program_page d) b p (flash_memory s)) (physical_addr b p) =
  program_page d (page_of (flash_memory s) (physical_addr b p)).
Proof. intros Hwf Hg. rewrite update_page_addr by done. page_cases. Qed.

(** With a free page left, [write_data] keeps every mapped page valid. *)
Theorem write_data_consistent lba d s :
  wf s -> consistent s -> has_free_page s = true -> consistent (write_data lba d s).1.
Proof.
  intros Hwf Hc Hfree. unfold write_data, has_free_page in *.
  pose proof (invalidate_mapping_find_free lba s Hwf) as Hff.
  pose proof (invalidate_mapping_wf lba s Hwf) as Hwf1.
  pose proof (invalidate_mapping_l2p lba s) as Hl2p.
  pose proof (invalidate_mapping_page_other lba s) as Hother.
  destruct (invalidate_mapping lba s) as [s1 out1]; simpl in *.
  unfold program_free_page. rewrite Hff.
  destruct (find_free_page (flash_memory s)) as [[b p]|] eqn:Hf; [|done].
  intros lba' a'. simpl. unfold StdMap.assign. rewrite lookup_insert.
  case_decide; intros Ha'; simplify_eq.
  - apply find_free_page_addr in Hff as (Hg & _).
    by rewrite program_page_new.
  - rewrite (program_page_other s1 lba') by done.
    rewrite Hl2p in Ha'. rewrite Hother; [by apply (Hc lba')|done|eauto with ftl|].
    intros Hlba. apply H. eapply (wf_injective s Hwf); eauto.
Qed.

Lemma wf_init : wf init.
Proof.
  split; simpl; unfold page_of; try setoid_rewrite page_at_new_flash; try done.
  all: first [apply shape_ok_new_flash | intros ?? v; by rewrite lookup_empty].
Qed.

Lemma exec_wf op s : wf s -> wf (exec op s).1.
Proof. destruct op; simpl; [apply write_data_wf|apply read_data_wf]. Qed.

Lemma run_wf ops s : wf s -> wf (run ops s).1.
Proof.
  revert s; induction ops as [|op ops IH]; intros s Hwf; simpl; [done|].
  pose proof (exec_wf op s Hwf) as Hwf1.
  destruct (exec op s) as [s1 out1]. specialize (IH s1 Hwf1).
  by destruct (run ops s1).
Qed.

Lemma run_init_wf ops : wf (run ops init).1.
Proof. apply run_wf, wf_init. Qed.

End Invariants.
