(* ===== verification/Behaviour.v ===== *)
(** Functional behaviour of [write_data] and [read_data] (src/ftl.cpp
    lines 35-88) on every branch: the value a read prints, what a write
    prints and changes when a free page exists, and what it changes when
    the device is full. *)

From stdpp Require Import base list gmap strings.
From Stdlib Require Import ZArith Lia.
From S2P Require Import Prelude Geometry Flash Mapping Ftl Invariants.

Module Behaviour.
Import Geometry Flash Ftl Invariants.
Open Scope Z_scope.
Open Scope ftl_scope.

(** What [read_data] prints: the data of the mapped page, decoded with
    [/] and [%], or "not found". *)
Lemma read_result_spec lba s :
  read_result lba s = (fun a => data (page_of (flash_memory s) a)) <$> l2p_table s !! lba.
Proof.
  unfold read_result, read_data, StdMap.count.
  destruct (l2p_table s !! lba) as [a|] eqn:Ha; [|done].
  by rewrite (StdMap.subscript_present _ _ a Ha).
Qed.

(** The line [read_data] prints for [lba] (lines 79-86). *)
Definition read_line (lba : Z) (s : FTL_Simulator) : Event :=
  match l2p_table s !! lba with
  | Some a => EvRead lba (data (page_of (flash_memory s) a))
  | None => EvNotFound lba
  end.

(** [a] is the free page of lowest physical address of [fm]. *)
Definition lowest_free (fm : list Block) (a : Z) : Prop :=
  valid_addr a /\ is_free (page_of fm a) = true /\
  forall a', valid_addr a' -> a' < a -> is_free (page_of fm a') = false.

(** [lba] is mapped to [a] and the page at [a] is not valid. *)
Definition stale_mapping (s : FTL_Simulator) (lba a : Z) : Prop :=
  l2p_table s !! lba = Some a /\ is_valid (page_of (flash_memory s) a) = false.

(** C9: [read_data] never changes the simulator (the subscript is guarded
    by [count], so [operator[]] never inserts) and prints the data of the
    mapped page, decoded with [/] and [%], or "not found". *)
Theorem read_data_spec lba s : read_data lba s = (s, [read_line lba s]).
Proof.
  unfold read_data, read_line, StdMap.count.
  destruct (l2p_table s !! lba) as [a|] eqn:Ha; [|done].
  rewrite (StdMap.subscript_present _ _ a Ha). by destruct s.
Qed.

(** The events [write_data] prints in step 1. *)
Definition invalidation_events (lba : Z) (s : FTL_Simulator) : list Event :=
  match l2p_table s !! lba with Some a => [EvInvalidated a] | None => [] end.

Lemma invalidate_mapping_events lba s :
  (invalidate_mapping lba s).2 = invalidation_events lba s.
Proof.
  unfold invalidation_events. destruct (l2p_table s !! lba) as [a|] eqn:Ha.
  - by rewrite (invalidate_mapping_mapped s lba a).
  - by rewrite invalidate_mapping_unmapped.
Qed.

(** [write_data] when the search succeeds. *)
Lemma write_data_found lba d s b p :
  wf s -> find_free_page (flash_memory s) = Some (b, p) ->
  write_data lba d s =
    ({| flash_memory :=
          update_page (program_page d) b p (flash_memory (invalidate_mapping lba s).1);
        l2p_table := <[lba := physical_addr b p]> (l2p_table s) |},
     invalidation_events lba s ++ [EvWritten lba (physical_addr b p)]).
Proof.
  intros Hwf Hf. unfold write_data.
  rewrite <- invalidate_mapping_events, <- (invalidate_mapping_l2p lba s).
  rewrite <- (invalidate_mapping_find_free lba s Hwf) in Hf.
  destruct (invalidate_mapping lba s) as [s1 out1]. simpl in *.
  unfold program_free_page. by rewrite Hf.
Qed.

(** [write_data] when the search fails: only step 1 has happened. *)
Lemma write_data_not_found lba d s :
  wf s -> find_free_page (flash_memory s) = None ->
  write_data lba d s =
    ((invalidate_mapping lba s).1, invalidation_events lba s ++ [EvDiskFull]).
Proof.
  intros Hwf Hf. unfold write_data.
  rewrite <- invalidate_mapping_events.
  rewrite <- (invalidate_mapping_find_free lba s Hwf) in Hf.
  destruct (invalidate_mapping lba s) as [s1 out1]. simpl in *.
  unfold program_free_page. by rewrite Hf.
Qed.

(** A write leaves the entry of every other LBA as it was. *)
Lemma write_data_l2p_other lba lba' d s :
  wf s -> lba' <> lba -> l2p_table (write_data lba d s).1 !! lba' = l2p_table s !! lba'.
Proof.
  intros Hwf Hne. destruct (find_free_page (flash_memory s)) as [[b p]|] eqn:Hf.
  - rewrite (write_data_found lba d s b p) by done. simpl. by rewrite lookup_insert_ne.
  - rewrite write_data_not_found by done. simpl. by rewrite invalidate_mapping_l2p.
Qed.

(** ... and the page of every other LBA. *)
Lemma write_data_page_other lba lba' a' d s :
  wf s -> lba' <> lba -> l2p_table s !! lba' = Some a' ->
  page_of (flash_memory (write_data lba d s).1) a' = page_of (flash_memory s) a'.
Proof.
  intros Hwf Hne Ha'.
  assert (Hold : l2p_table s !! lba <> Some a').
  { intros Ha. apply Hne. eapply (wf_injective s Hwf); eauto. }
  pose proof (invalidate_mapping_page_other lba s a' Hwf (wf_mapped_addr s Hwf _ _ Ha') Hold) as H1.
  destruct (find_free_page (flash_memory s)) as [[b p]|] eqn:Hf.
  - rewrite (write_data_found lba d s b p) by done. simpl.
    rewrite (program_page_other _ lba'); [done|by apply invalidate_mapping_wf| |].
    + by rewrite invalidate_mapping_find_free.
    + by rewrite invalidate_mapping_l2p.
  - rewrite write_data_not_found by done. done.
Qed.

(** Step 1 keeps the number of free pages. *)
Lemma invalidate_mapping_free_pages lba s :
  wf s -> count_pages is_free (flash_memory (invalidate_mapping lba s).1) =
          count_pages is_free (flash_memory s).
Proof.
  intros Hwf. destruct (l2p_table s !! lba) as [a|] eqn:Ha.
  - rewrite (invalidate_mapping_mapped s lba a Ha). simpl.
    pose proof (count_pages_update_addr is_free clear_valid a (flash_memory s)
                  (wf_shape _ Hwf) (wf_mapped_addr _ Hwf _ _ Ha)) as H.
    simpl in H. destruct (is_free _); lia.
  - by rewrite invalidate_mapping_unmapped.
Qed.


(** On a full device a write changes what no LBA reads: the only page it
    touches keeps its data. *)
Lemma write_data_full_read lba lba' d s :
  wf s -> has_free_page s = false ->
  read_result lba' (write_data lba d s).1 = read_result lba' s.
Proof.
  intros Hwf Hfree. unfold has_free_page in Hfree.
  destruct (find_free_page (flash_memory s)) eqn:Hf; [done|].
  rewrite (write_data_not_found lba d s Hwf Hf). simpl.
  rewrite !read_result_spec, invalidate_mapping_l2p.
  destruct (l2p_table s !! lba') as [a'|] eqn:Ha'; [simpl; f_equal|done].
  destruct (l2p_table s !! lba) as [a|] eqn:Ha.
  - rewrite (invalidate_mapping_mapped s lba a Ha). simpl.
    rewrite page_of_update_addr by eauto with ftl. by case_decide; subst.
  - by rewrite (invalidate_mapping_unmapped s lba Ha).
Qed.

(** writing then reading the same LBA returns the written value,
    whenever a free page is left. *)
Theorem write_read_same lba d s :
  wf s -> has_free_page s = true -> read_result lba (write_data lba d s).1 = Some d.
Proof.
  intros Hwf Hfree. unfold has_free_page in Hfree.
  destruct (find_free_page (flash_memory s)) as [[b p]|] eqn:Hf; [|done].
  rewrite (write_data_found lba d s b p Hwf Hf), read_result_spec. simpl.
  rewrite lookup_insert_eq. simpl. f_equal.
  apply find_free_page_addr in Hf as (Hg & _).
  rewrite program_page_new; [done|by apply invalidate_mapping_wf|done].
Qed.

(** a write leaves what every other LBA reads unchanged, on every
    branch (free page found or disk full). *)
Theorem write_read_other lba lba' d s :
  wf s -> lba' <> lba -> read_result lba' (write_data lba d s).1 = read_result lba' s.
Proof.
  intros Hwf Hne. rewrite !read_result_spec, write_data_l2p_other by done.
  destruct (l2p_table s !! lba') as [a'|] eqn:Ha'; [|done]. simpl.
  by rewrite (write_data_page_other lba lba' a').
Qed.

(** C7: a write places the data at the free page of lowest physical
    address (first fit over blocks, then pages). *)
Theorem write_data_first_fit lba d s :
  wf s -> has_free_page s = true ->
  exists a, l2p_table (write_data lba d s).1 !! lba = Some a /\ lowest_free (flash_memory s) a.
Proof.
  intros Hwf Hfree. unfold has_free_page in Hfree.
  destruct (find_free_page (flash_memory s)) as [[b p]|] eqn:Hf; [|done].
  rewrite (write_data_found lba d s b p Hwf Hf). simpl. rewrite lookup_insert_eq.
  apply find_free_page_Some in Hf as (Hg & Hfb & Hmin).
  exists (physical_addr b p). split; [done|]. split; [by apply physical_addr_valid|].
  split; [by rewrite <- page_at_addr|].
  intros a' Ha' Hlt. destruct (addr_encode_decode a' Ha') as [Hg' Heq].
  unfold page_of. apply Hmin; [done|]. by rewrite Heq.
Qed.

(** C10: when no page is free, [write_data] prints the invalidation of the
    old page (if any) and "Disk Full!", and the table is unchanged. *)
Theorem write_data_disk_full lba d s :
  wf s -> has_free_page s = false ->
  l2p_table (write_data lba d s).1 = l2p_table s /\
  (write_data lba d s).2 = invalidation_events lba s ++ [EvDiskFull].
Proof.
  intros Hwf Hfree. unfold has_free_page in Hfree.
  destruct (find_free_page (flash_memory s)) eqn:Hf; [done|].
  rewrite (write_data_not_found lba d s Hwf Hf). simpl.
  split; [apply invalidate_mapping_l2p|done].
Qed.

(** C5: overwriting an LBA on a full device invalidates its page before
    discovering that no page is free: the LBA stays mapped to a page that
    is no longer valid, and reads still return the superseded data. *)
Theorem disk_full_overwrite_stale lba d s a :
  wf s -> has_free_page s = false -> l2p_table s !! lba = Some a ->
  stale_mapping (write_data lba d s).1 lba a /\
  read_result lba (write_data lba d s).1 = read_result lba s.
Proof.
  intros Hwf Hfree Ha. unfold has_free_page in Hfree.
  destruct (find_free_page (flash_memory s)) eqn:Hf; [done|].
  rewrite (write_data_not_found lba d s Hwf Hf). simpl.
  unfold stale_mapping. rewrite !read_result_spec, invalidate_mapping_l2p, Ha. simpl.
  split; [split; [done|by apply invalidate_mapping_old_invalid]|].
  rewrite (invalidate_mapping_mapped s lba a Ha). simpl.
  rewrite page_of_update_addr, decide_True by eauto with ftl. done.
Qed.

(** a write that finds a free page consumes exactly one; a write on a
    full device consumes none. *)
Theorem write_data_free_pages lba d s :
  wf s ->
  (count_pages is_free (flash_memory (write_data lba d s).1) +
     (if has_free_page s then 1 else 0) = count_pages is_free (flash_memory s))%nat.
Proof.
  intros Hwf. unfold has_free_page.
  destruct (find_free_page (flash_memory s)) as [[b p]|] eqn:Hf.
  - rewrite (write_data_found lba d s b p Hwf Hf). simpl.
    pose proof (invalidate_mapping_wf lba s Hwf) as Hwf1.
    rewrite <- (invalidate_mapping_find_free lba s Hwf) in Hf.
    apply find_free_page_Some in Hf as (Hg & Hfb & _).
    pose proof (count_pages_update is_free (program_page d) b p _ (wf_shape _ Hwf1) Hg) as H.
    rewrite Hfb in H. simpl in H. rewrite <- (invalidate_mapping_free_pages lba s Hwf). lia.
  - rewrite (write_data_not_found lba d s Hwf Hf). simpl.
    rewrite invalidate_mapping_free_pages by done. lia.
Qed.

Lemma write_data_first_fit_witness :
  wf (run main_ops init).1 /\ has_free_page (run main_ops init).1 = true /\
  exists a, l2p_table (write_data 30 1 (run main_ops init).1).1 !! 30 = Some a /\
    lowest_free (flash_memory (run main_ops init).1) a.
Proof.
  assert (H : has_free_page (run main_ops init).1 = true) by (vm_compute; reflexivity).
  refine (conj (run_init_wf _) (conj H _)).
  exact (write_data_first_fit 30 1 _ (run_init_wf _) H).
Defined.

Lemma write_data_disk_full_witness :
  wf (run fill_ops init).1 /\ has_free_page (run fill_ops init).1 = false /\
  l2p_table (write_data 99 1 (run fill_ops init).1).1 = l2p_table (run fill_ops init).1 /\
  (write_data 99 1 (run fill_ops init).1).2 =
    invalidation_events 99 (run fill_ops init).1 ++ [EvDiskFull].
Proof.
  assert (H : has_free_page (run fill_ops init).1 = false) by (vm_compute; reflexivity).
  refine (conj (run_init_wf _) (conj H _)).
  exact (write_data_disk_full 99 1 _ (run_init_wf _) H).
Defined.

Lemma disk_full_overwrite_stale_witness :
  wf (run fill_ops init).1 /\ has_free_page (run fill_ops init).1 = false /\
  l2p_table (run fill_ops init).1 !! 0 = Some 0 /\
  stale_mapping (write_data 0 999 (run fill_ops init).1).1 0 0 /\
  read_result 0 (write_data 0 999 (run fill_ops init).1).1 = read_result 0 (run fill_ops init).1.
Proof.
  assert (H : has_free_page (run fill_ops init).1 = false) by (vm_compute; reflexivity).
  assert (Hm : l2p_table (run fill_ops init).1 !! 0 = Some 0) by (vm_compute; reflexivity).
  refine (conj (run_init_wf _) (conj H (conj Hm _))).
  exact (disk_full_overwrite_stale 0 999 _ 0 (run_init_wf _) H Hm).
Defined.

End Behaviour.
