(* ===== verification/Reachable.v ===== *)
(** Sequences of calls on one simulator: the public methods as a step
    relation on [FTL_Simulator], the states reachable from the constructor
    and what holds in all of them, proved by rule induction (the page life
    cycle, the free-page invariant, the address map), and what holds of
    [run] over whole sequences of calls (bounds, unwritten LBAs). *)

From stdpp Require Import base list gmap strings relations.
From Stdlib Require Import ZArith Lia Relation_Operators.
From S2P Require Import Prelude Geometry Flash Mapping Ftl Invariants Behaviour.

Module Reachable.
Import Geometry Flash Ftl Invariants Behaviour.
Open Scope Z_scope.
Open Scope ftl_scope.

Inductive step : FTL_Simulator -> FTL_Simulator -> Prop :=
  | step_exec op s : step s (exec op s).1.

Notation "s ~~> s'" := (step s s') (at level 70) : ftl_scope.

Definition reachable (s : FTL_Simulator) : Prop := rtc step init s.

(** The life cycle of a page in the design: programmed when free,
    invalidated when valid (erasure, back to free, is never performed). *)
Inductive page_step : PageState -> PageState -> Prop :=
  | ps_program : page_step PFree PValid
  | ps_invalidate : page_step PValid PStale.

(** Whether a sequence of calls writes [lba]. *)
Definition writes_to (lba : Z) (ops : list Op) : bool :=
  existsb (fun op => match op with OpWrite l _ => bool_decide (l = lba) | OpRead _ => false end) ops.

Definition is_written (e : Event) : bool :=
  match e with EvWritten _ _ => true | _ => false end.

(** ** Reachable states *)

Lemma run_reachable ops s : reachable s -> reachable (run ops s).1.
Proof.
  revert s; induction ops as [|op ops IH]; intros s Hs; simpl; [done|].
  destruct (exec op s) as [s1 out1] eqn:E1.
  destruct (run ops s1) as [s2 out2] eqn:E2. simpl.
  change s2 with (s2, out2).1. rewrite <- E2. apply IH.
  eapply rtc_r; [exact Hs|]. change s1 with (s1, out1).1. rewrite <- E1. constructor.
Qed.

Lemma run_init_reachable ops : reachable (run ops init).1.
Proof. apply run_reachable. apply rtc_refl. Qed.



(** Rule induction over the calls made since the constructor. *)
Lemma reachable_ind (P : FTL_Simulator -> Prop) :
  P init -> (forall s s', reachable s -> s ~~> s' -> P s -> P s') ->
  forall s, reachable s -> P s.
Proof. intros Hinit Hstep s Hr. by apply (rtc_ind_r (R:=step) P init Hinit). Qed.

Lemma step_wf s s' : wf s -> s ~~> s' -> wf s'.
Proof.
  intros Hwf Hstep. invc Hstep. destruct op as [lba d|lba]; simpl.
  - by apply write_data_wf.
  - by apply read_data_wf.
Qed.

(** every state reachable from the constructor is well formed: the
    table is injective, maps only to programmed in-range pages, covers
    every valid page, and no page is both free and valid. *)
Theorem reachable_wf s : reachable s -> wf s.
Proof.
  apply reachable_ind; [apply wf_init|]. intros s1 s2 _ Hstep IH. by eapply step_wf.
Qed.

(** ** Page life cycle *)

(** A page moves by at most one step of its life cycle. *)
Abbreviation page_step_opt := (clos_refl PageState page_step).

Lemma clear_valid_lifecycle pg :
  is_free pg = false -> page_step_opt (page_state pg) (page_state (clear_valid pg)).
Proof.
  intros Hf. unfold page_state, clear_valid. simpl. rewrite Hf.
  destruct (is_valid pg); [apply r_step; constructor|apply r_refl].
Qed.

Lemma program_lifecycle d pg :
  is_free pg = true -> is_valid pg = false ->
  page_step_opt (page_state pg) (page_state (program_page d pg)).
Proof.
  intros Hf Hv. unfold page_state. simpl. rewrite Hf, Hv. apply r_step. constructor.
Qed.

Lemma invalidate_mapping_lifecycle lba s a :
  wf s -> valid_addr a ->
  page_step_opt (page_state (page_of (flash_memory s) a))
                (page_state (page_of (flash_memory (invalidate_mapping lba s).1) a)).
Proof.
  intros Hwf Ha. destruct (l2p_table s !! lba) as [a0|] eqn:Ha0.
  - rewrite (invalidate_mapping_mapped s lba a0 Ha0). simpl. page_cases; [|apply r_refl].
    apply clear_valid_lifecycle. by apply (wf_mapped_not_free s Hwf lba).
  - rewrite invalidate_mapping_unmapped by done. apply r_refl.
Qed.

(** [write_data] changes each page at most once: the page it invalidates
    was programmed before, the page it programs was free, so they differ. *)
Lemma write_data_lifecycle lba d s a :
  wf s -> valid_addr a ->
  page_step_opt (page_state (page_of (flash_memory s) a))
                (page_state (page_of (flash_memory (write_data lba d s).1) a)).
Proof.
  intros Hwf Ha. pose proof (invalidate_mapping_lifecycle lba s a Hwf Ha) as H1.
  destruct (find_free_page (flash_memory s)) as [[b p]|] eqn:Hf.
  - rewrite (write_data_found lba d s b p Hwf Hf). simpl.
    pose proof (invalidate_mapping_wf lba s Hwf) as Hwf1.
    pose proof Hf as (Hg & Hv0 & Hfree0)%find_free_page_addr.
    rewrite update_page_addr by done.
    rewrite page_of_update_addr by eauto with ftl. case_decide as Heq; [subst a|done].
    assert (Hold : l2p_table s !! lba <> Some (physical_addr b p)).
    { intros Hm. pose proof (wf_mapped_not_free s Hwf lba _ Hm). congruence. }
    rewrite (invalidate_mapping_page_other lba s _ Hwf Hv0 Hold).
    apply program_lifecycle; [done|]. by apply (wf_free_not_valid s Hwf).
  - by rewrite (write_data_not_found lba d s Hwf Hf).
Qed.

Lemma page_step_opt_free st : page_step_opt st PFree -> st = PFree.
Proof. intros H. inversion H as [? Hs|]; [inversion Hs|done]. Qed.

(** A page that is free after a call was free before it. *)
Lemma step_free_before s s' a :
  wf s -> s ~~> s' -> valid_addr a ->
  is_free (page_of (flash_memory s') a) = true -> is_free (page_of (flash_memory s) a) = true.
Proof.
  intros Hwf Hstep Ha Hfree. invc Hstep. destruct op as [lba d|lba]; simpl in Hfree.
  - pose proof (write_data_lifecycle lba d s a Hwf Ha) as Hl.
    pose proof (wf_free_not_valid _ (write_data_wf lba d s Hwf) a Ha Hfree) as Hv.
    unfold page_state at 2 in Hl. rewrite Hfree, Hv in Hl.
    apply page_step_opt_free in Hl. unfold page_state in Hl.
    destruct (is_free (page_of (flash_memory s) a)), (is_valid (page_of (flash_memory s) a)); done.
  - by rewrite read_data_state in Hfree.
Qed.

Lemma step_has_free_page s s' :
  wf s -> s ~~> s' -> has_free_page s' = true -> has_free_page s = true.
Proof.
  intros Hwf Hstep. unfold has_free_page.
  destruct (find_free_page (flash_memory s')) as [[b p]|] eqn:Hf'; [|done]. intros _.
  apply find_free_page_addr in Hf' as (_ & Ha & Hfree).
  eapply step_free_before in Hfree; [|done|done|done].
  destruct (find_free_page (flash_memory s)) eqn:Hf; [done|].
  by rewrite (find_free_page_None_addr _ _ Hf Ha) in Hfree.
Qed.

(** ** The address map of reachable states *)

Lemma write_data_valid_count lba d s :
  wf s -> consistent s -> has_free_page s = true ->
  (count_pages is_valid (flash_memory (write_data lba d s).1) + size (l2p_table s) =
   count_pages is_valid (flash_memory s) + size (l2p_table (write_data lba d s).1))%nat.
Proof.
  intros Hwf Hc Hfree. unfold has_free_page in Hfree.
  destruct (find_free_page (flash_memory s)) as [[b p]|] eqn:Hf; [|done].
  rewrite (write_data_found lba d s b p Hwf Hf). simpl.
  pose proof (invalidate_mapping_wf lba s Hwf) as Hwf1.
  rewrite <- (invalidate_mapping_find_free lba s Hwf) in Hf.
  apply find_free_page_addr in Hf as (Hg & Hv0 & Hfree0).
  rewrite update_page_addr by done.
  pose proof (count_pages_update_addr is_valid (program_page d) (physical_addr b p) _
                (wf_shape _ Hwf1) Hv0) as H2.
  rewrite (wf_free_not_valid _ Hwf1 _ Hv0 Hfree0) in H2. simpl in H2.
  rewrite map_size_insert.
  destruct (l2p_table s !! lba) as [a|] eqn:Ha; simpl.
  - rewrite (invalidate_mapping_mapped s lba a Ha) in H2 |- *. simpl in H2 |- *.
    pose proof (count_pages_update_addr is_valid clear_valid a _ (wf_shape _ Hwf)
                  (wf_mapped_addr _ Hwf _ _ Ha)) as H1.
    rewrite (Hc lba a Ha) in H1. simpl in H1. lia.
  - rewrite (invalidate_mapping_unmapped s lba Ha) in H2 |- *. simpl in H2 |- *. lia.
Qed.

(** C4: in every reachable state that still has a free page, the table is
    the design's address map: every mapped page is valid, and the pages
    marked valid are exactly as many as the table's entries. *)
Theorem reachable_free_map s :
  reachable s -> has_free_page s = true ->
  consistent s /\ count_pages is_valid (flash_memory s) = size (l2p_table s).
Proof.
  revert s.
  apply (reachable_ind (fun s => has_free_page s = true ->
           consistent s /\ count_pages is_valid (flash_memory s) = size (l2p_table s))).
  - intros _. split; [|reflexivity]. intros lba a. simpl. by rewrite lookup_empty.
  - intros s s' Hr Hstep IH Hfree'. pose proof (reachable_wf s Hr) as Hwf.
    pose proof (step_has_free_page s s' Hwf Hstep Hfree') as Hfree.
    destruct (IH Hfree) as [Hc Hcount].
    invc Hstep. destruct op as [lba d|lba]; simpl in *.
    + pose proof (write_data_valid_count lba d s Hwf Hc Hfree).
      split; [by apply write_data_consistent|lia].
    + rewrite read_data_state in *. auto.
Qed.

(** ** Runs *)

Lemma exec_written op s :
  wf s ->
  (count_true is_written (exec op s).2 + count_pages is_free (flash_memory (exec op s).1) =
   count_pages is_free (flash_memory s))%nat.
Proof.
  intros Hwf. destruct op as [lba d|lba]; simpl.
  - pose proof (write_data_free_pages lba d s Hwf) as H.
    assert (Hw : count_true is_written (write_data lba d s).2 =
                 if has_free_page s then 1%nat else 0%nat).
    { unfold has_free_page. destruct (find_free_page (flash_memory s)) as [[b p]|] eqn:Hf.
      - rewrite (write_data_found lba d s b p Hwf Hf). unfold invalidation_events.
        by destruct (l2p_table s !! lba).
      - rewrite (write_data_not_found lba d s Hwf Hf). unfold invalidation_events.
        by destruct (l2p_table s !! lba). }
    rewrite Hw. destruct (has_free_page s); lia.
  - rewrite read_data_state. unfold read_data.
    destruct (StdMap.count lba (l2p_table s)); [destruct (StdMap.subscript _ _)|]; done.
Qed.

Lemma run_written ops s :
  wf s ->
  (count_true is_written (run ops s).2 + count_pages is_free (flash_memory (run ops s).1) =
   count_pages is_free (flash_memory s))%nat.
Proof.
  revert s; induction ops as [|op ops IH]; intros s Hwf; simpl; [done|].
  pose proof (exec_written op s Hwf) as H1.
  pose proof (step_wf s _ Hwf (step_exec op s)) as Hwf1.
  destruct (exec op s) as [s1 out1]. simpl in *.
  specialize (IH s1 Hwf1). destruct (run ops s1) as [s2 out2]. simpl in *.
  unfold count_true in *. rewrite sum_list_with_app. lia.
Qed.

(** C12: over any sequence of calls on a new simulator, at most
    [TOTAL_BLOCKS * PAGES_PER_BLOCK] writes succeed: pages are never
    erased and nothing reclaims stale pages. *)
Theorem run_written_bound ops :
  (count_true is_written (run ops init).2 <= Z.to_nat (TOTAL_BLOCKS * PAGES_PER_BLOCK))%nat.
Proof.
  pose proof (run_written ops init wf_init) as H.
  assert (Hfree0 : count_pages is_free (flash_memory init) = 16%nat) by reflexivity.
  unfold TOTAL_BLOCKS, PAGES_PER_BLOCK. simpl. lia.
Qed.

Lemma run_l2p_other ops lba s :
  wf s -> writes_to lba ops = false ->
  l2p_table (run ops s).1 !! lba = l2p_table s !! lba.
Proof.
  revert s; induction ops as [|op ops IH]; intros s Hwf Hnot; simpl; [done|].
  pose proof (step_wf s _ Hwf (step_exec op s)) as Hwf1.
  assert (Hop : l2p_table (exec op s).1 !! lba = l2p_table s !! lba).
  { destruct op as [lba' d|lba']; simpl in *.
    - apply write_data_l2p_other; [done|]. intros ->.
      unfold writes_to in Hnot. simpl in Hnot.
      rewrite bool_decide_true in Hnot by done. discriminate.
    - by rewrite read_data_state. }
  destruct (exec op s) as [s1 out1]. simpl in *.
  rewrite <- Hop, <- (IH s1 Hwf1).
  - by destruct (run ops s1).
  - unfold writes_to in *. simpl in Hnot. by apply orb_false_iff in Hnot as [_ Hnot].
Qed.




(** C15: an LBA that no call of a sequence writes reads "not found". *)
Theorem never_written_not_found ops lba :
  writes_to lba ops = false -> read_result lba (run ops init).1 = None.
Proof.
  intros Hnot. rewrite read_result_spec, run_l2p_other by (done || apply wf_init).
  simpl. by rewrite lookup_empty.
Qed.

Lemma never_written_not_found_witness :
  writes_to 30 main_ops = false /\ read_result 30 (run main_ops init).1 = None.
Proof.
  assert (H : writes_to 30 main_ops = false) by (vm_compute; reflexivity).
  exact (conj H (never_written_not_found main_ops 30 H)).
Defined.

Lemma reachable_free_map_witness :
  reachable (run main_ops init).1 /\ has_free_page (run main_ops init).1 = true /\
  consistent (run main_ops init).1 /\
  count_pages is_valid (flash_memory (run main_ops init).1) = size (l2p_table (run main_ops init).1).
Proof.
  assert (H : has_free_page (run main_ops init).1 = true) by (vm_compute; reflexivity).
  refine (conj (run_init_reachable _) (conj H _)).
  exact (reachable_free_map _ (run_init_reachable _) H).
Defined.






(** ** Properties of reachable states *)

(** C6: no two LBAs ever map to the same physical page. *)
Theorem reachable_no_shared_page s lba1 lba2 a :
  reachable s -> l2p_table s !! lba1 = Some a -> l2p_table s !! lba2 = Some a -> lba1 = lba2.
Proof. intros Hr. apply (wf_injective s (reachable_wf s Hr)). Qed.

Lemma reachable_no_shared_page_witness :
  reachable (run main_ops init).1 /\
  l2p_table (run main_ops init).1 !! 10 = Some 2 /\
  l2p_table (run main_ops init).1 !! 10 = Some 2 /\ 10 = 10.
Proof.
  assert (H : l2p_table (run main_ops init).1 !! 10 = Some 2) by (vm_compute; reflexivity).
  refine (conj (run_init_reachable _) (conj H (conj H _))).
  exact (reachable_no_shared_page _ 10 10 2 (run_init_reachable _) H H).
Defined.

(** C14: every index that [invalidate_old_page] and [read_data] compute from
    the table lies inside the flash array (no out-of-range access). *)
Theorem reachable_table_in_range s lba a :
  reachable s -> l2p_table s !! lba = Some a ->
  0 <= addr_block a < TOTAL_BLOCKS /\ 0 <= addr_page a < PAGES_PER_BLOCK.
Proof.
  intros Hr Ha. apply addr_encode_decode. exact (wf_mapped_addr s (reachable_wf s Hr) lba a Ha).
Qed.

Lemma reachable_table_in_range_witness :
  reachable (run main_ops init).1 /\ l2p_table (run main_ops init).1 !! 20 = Some 1 /\
  0 <= addr_block 1 < TOTAL_BLOCKS /\ 0 <= addr_page 1 < PAGES_PER_BLOCK.
Proof.
  assert (H : l2p_table (run main_ops init).1 !! 20 = Some 1) by (vm_compute; reflexivity).
  refine (conj (run_init_reachable _) (conj H _)).
  exact (reachable_table_in_range _ 20 1 (run_init_reachable _) H).
Defined.

(** C2: in a reachable state with a free page, reading an LBA right after
    writing it returns the written value. *)
Theorem reachable_write_read s lba d :
  reachable s -> has_free_page s = true -> read_result lba (write_data lba d s).1 = Some d.
Proof. intros Hr. apply write_read_same, reachable_wf, Hr. Qed.

Lemma reachable_write_read_witness :
  reachable (run main_ops init).1 /\ has_free_page (run main_ops init).1 = true /\
  read_result 10 (write_data 10 502 (run main_ops init).1).1 = Some 502.
Proof.
  assert (H : has_free_page (run main_ops init).1 = true) by (vm_compute; reflexivity).
  refine (conj (run_init_reachable _) (conj H _)).
  exact (reachable_write_read _ 10 502 (run_init_reachable _) H).
Defined.

(** C3: in a reachable state, a write (successful or not) changes what no
    other LBA reads. *)
Theorem reachable_write_read_other s lba lba' d :
  reachable s -> lba' <> lba -> read_result lba' (write_data lba d s).1 = read_result lba' s.
Proof. intros Hr. apply write_read_other, reachable_wf, Hr. Qed.

Lemma reachable_write_read_other_witness :
  reachable (run fill_ops init).1 /\ 3 <> 5 /\
  read_result 3 (write_data 5 0 (run fill_ops init).1).1 = read_result 3 (run fill_ops init).1.
Proof.
  assert (Hne : 3 <> 5) by lia.
  refine (conj (run_init_reachable _) (conj Hne _)).
  exact (reachable_write_read_other _ 5 3 0 (run_init_reachable _) Hne).
Defined.

(** C13: each call moves every page of a reachable state along its life
    cycle free -> valid -> stale by at most one step: it stays as it is,
    is programmed (free to valid) or is invalidated (valid to stale); in
    particular no call takes a page from free to stale, and none returns a
    page to free. *)
Theorem step_page_lifecycle s s' a :
  reachable s -> s ~~> s' -> valid_addr a ->
  clos_refl PageState page_step (page_state (page_of (flash_memory s) a))
                                (page_state (page_of (flash_memory s') a)).
Proof.
  intros Hr Hstep Ha. pose proof (reachable_wf s Hr) as Hwf.
  invc Hstep. destruct op as [lba d|lba]; simpl.
  - by apply write_data_lifecycle.
  - rewrite read_data_state. apply r_refl.
Qed.

Lemma step_page_lifecycle_witness :
  reachable (run main_ops init).1 /\
  (run main_ops init).1 ~~> (exec (OpWrite 20 701) (run main_ops init).1).1 /\
  valid_addr 1 /\
  clos_refl PageState page_step (page_state (page_of (flash_memory (run main_ops init).1) 1))
    (page_state (page_of (flash_memory (exec (OpWrite 20 701) (run main_ops init).1).1) 1)).
Proof.
  assert (Ha : valid_addr 1) by (unfold valid_addr, TOTAL_BLOCKS, PAGES_PER_BLOCK; lia).
  refine (conj (run_init_reachable _) (conj (step_exec _ _) (conj Ha _))).
  exact (step_page_lifecycle _ _ 1 (run_init_reachable _) (step_exec _ _) Ha).
Defined.

(** C11: once no page is free, no call ever frees one: the device stays
    full for good (the simulator has no garbage collection). *)
Theorem full_stays_full s s' :
  reachable s -> has_free_page s = false -> s ~~> s' -> has_free_page s' = false.
Proof.
  intros Hr Hfull Hstep. destruct (has_free_page s') eqn:E; [|done].
  rewrite (step_has_free_page s s' (reachable_wf s Hr) Hstep E) in Hfull. done.
Qed.

Lemma full_stays_full_witness :
  reachable (run fill_ops init).1 /\ has_free_page (run fill_ops init).1 = false /\
  (run fill_ops init).1 ~~> (exec (OpWrite 3 7) (run fill_ops init).1).1 /\
  has_free_page (exec (OpWrite 3 7) (run fill_ops init).1).1 = false.
Proof.
  assert (H : has_free_page (run fill_ops init).1 = false) by (vm_compute; reflexivity).
  refine (conj (run_init_reachable _) (conj H (conj (step_exec _ _) _))).
  exact (full_stays_full _ _ (run_init_reachable _) H (step_exec _ _)).
Defined.

End Reachable.
