(* ===== verification/Spec.v ===== *)
(** The contract of the device as its caller sees it (spec sections 4.5
    and 8: [write], [read], capacity): a type class of operations with the
    laws they obey, an abstract model (a dictionary and a number of
    writes left) that satisfies them, and a client theorem proved against
    the class alone. *)

From stdpp Require Import base list gmap.
From Stdlib Require Import ZArith Lia.
From S2P Require Import Prelude.

Module Spec.
Open Scope Z_scope.

Class BlockDevice (S : Type) := {
  dev_write : Z -> Z -> S -> S;
  dev_read : Z -> S -> option Z;
  dev_room : S -> nat;          (** writes the device can still accept *)
  dev_ok : S -> Prop            (** representation invariant *)
}.

Class BlockDeviceLaws (S : Type) `{BlockDevice S} := {
  dev_ok_write l d s : dev_ok s -> dev_ok (dev_write l d s);
  dev_read_write_same l d s :
    dev_ok s -> dev_room s <> 0%nat -> dev_read l (dev_write l d s) = Some d;
  dev_read_write_other l l' d s :
    dev_ok s -> l' <> l -> dev_read l' (dev_write l d s) = dev_read l' s;
  dev_room_write l d s : dev_ok s -> dev_room (dev_write l d s) = pred (dev_room s);
  dev_read_write_full l d s :
    dev_ok s -> dev_room s = 0%nat -> dev_read l (dev_write l d s) = dev_read l s
}.

(** ** The abstract model *)

Record Store := mkStore { contents : gmap Z Z; room : nat }.

Definition store_write (l d : Z) (st : Store) : Store :=
  match room st with
  | O => st
  | S n => {| contents := <[l := d]> (contents st); room := n |}
  end.

Lemma store_eq (st1 st2 : Store) :
  (forall k, contents st1 !! k = contents st2 !! k) -> room st1 = room st2 -> st1 = st2.
Proof. destruct st1, st2; simpl. intros Hc ->. f_equal. by apply map_eq. Qed.

#[export] Instance Store_device : BlockDevice Store := {
  dev_write := store_write;
  dev_read l st := contents st !! l;
  dev_room := room;
  dev_ok _ := True
}.

#[export] Instance Store_laws : BlockDeviceLaws Store.
Proof.
  split; intros *; simpl; unfold store_write;
    destruct (room s) eqn:Hr; simpl; intros; try done.
  - by rewrite lookup_insert_eq.
  - by rewrite lookup_insert_ne.
Qed.

(** ** Clients of the contract *)

(** The last value written to [l] by a sequence of writes, if any. *)
Fixpoint last_write (l : Z) (ws : list (Z * Z)) : option Z :=
  match ws with
  | [] => None
  | (l', d) :: ws' =>
      match last_write l ws' with
      | Some v => Some v
      | None => if decide (l = l') then Some d else None
      end
  end.

Section Client.
Context {S : Type} `{BlockDeviceLaws S}.

Fixpoint write_all (ws : list (Z * Z)) (s : S) : S :=
  match ws with
  | [] => s
  | (l, d) :: ws' => write_all ws' (dev_write l d s)
  end.

(** Reading after a sequence of writes that fits in the device returns
    the most recent value written to that address, or what it held. *)
Lemma dev_read_write_all l ws s :
  dev_ok s -> (length ws <= dev_room s)%nat ->
  dev_read l (write_all ws s) =
    match last_write l ws with Some d => Some d | None => dev_read l s end.
Proof.
  revert s; induction ws as [|[l' d] ws IH]; intros s Hs Hlen; simpl; [done|].
  rewrite IH; [|by apply dev_ok_write|rewrite dev_room_write by done; simpl in *; lia].
  destruct (last_write l ws); [done|].
  case_decide as Hl; [subst; apply dev_read_write_same; [done|simpl in *; lia]|].
  by apply dev_read_write_other.
Qed.
End Client.

End Spec.
