(* ===== verification/Refinement.v ===== *)
(** The simulator implements the device contract of [Spec]: an instance of
    [BlockDevice] with its laws discharged by the theorems of [Behaviour],
    an abstraction function onto the abstract [Store] and the refinement
    theorems (one call, then any sequence of calls with what the reads
    print). *)

From stdpp Require Import base list gmap strings.
From Stdlib Require Import ZArith Lia.
From S2P Require Import Prelude Geometry Flash Mapping Ftl Invariants Behaviour Reachable Spec.

Module Refinement.
Import Geometry Flash Ftl Invariants Behaviour Reachable Spec.
Open Scope Z_scope.

(** Writes the simulator can still accept: its free pages. *)
Definition room_of (s : FTL_Simulator) : nat := count_pages is_free (flash_memory s).

Lemma has_free_page_room s : wf s -> has_free_page s = true <-> room_of s <> 0%nat.
Proof. intros Hwf. apply find_free_page_count, wf_shape, Hwf. Qed.

Lemma write_data_room lba d s :
  wf s -> room_of (write_data lba d s).1 = pred (room_of s).
Proof.
  intros Hwf. pose proof (write_data_free_pages lba d s Hwf) as H.
  pose proof (has_free_page_room s Hwf) as Hr. unfold room_of in *.
  destruct (has_free_page s); [lia|].
  destruct (decide (count_pages is_free (flash_memory s) = 0%nat)) as [Hz|Hz];
    [lia|by apply Hr in Hz].
Qed.

(** A write on a full device changes no read. *)
Lemma write_data_read_full lba lba' d s :
  wf s -> room_of s = 0%nat -> read_result lba' (write_data lba d s).1 = read_result lba' s.
Proof.
  intros Hwf Hroom. apply write_data_full_read; [done|].
  destruct (has_free_page s) eqn:E; [|done]. by apply has_free_page_room in E.
Qed.

#[export] Instance Ftl_device : BlockDevice FTL_Simulator := {
  dev_write lba d s := (write_data lba d s).1;
  dev_read := read_result;
  dev_room := room_of;
  dev_ok := wf
}.

#[export] Instance Ftl_laws : BlockDeviceLaws FTL_Simulator.
Proof.
  split; simpl.
  - apply write_data_wf.
  - intros l d s Hwf Hroom. apply write_read_same; [done|]. by apply has_free_page_room.
  - intros l l' d s Hwf Hne. by apply write_read_other.
  - apply write_data_room.
  - intros l d s Hwf Hroom. by apply write_data_read_full.
Qed.

(** ** Abstraction function and refinement *)

Definition abs (s : FTL_Simulator) : Store :=
  {| contents := (fun a => data (page_of (flash_memory s) a)) <$> l2p_table s;
     room := room_of s |}.

Lemma abs_lookup lba s : contents (abs s) !! lba = read_result lba s.
Proof. simpl. by rewrite lookup_fmap, read_result_spec. Qed.

(** The abstract operations, and what a read prints about the store. *)
Definition spec_exec (op : Op) (st : Store) : Store * list Event :=
  match op with
  | OpWrite lba d => (store_write lba d st, [])
  | OpRead lba =>
      (st, [match contents st !! lba with
            | Some v => EvRead lba v
            | None => EvNotFound lba
            end])
  end.

Fixpoint spec_run (ops : list Op) (st : Store) : Store * list Event :=
  match ops with
  | [] => (st, [])
  | op :: ops' =>
      let '(st1, o1) := spec_exec op st in
      let '(st2, o2) := spec_run ops' st1 in
      (st2, o1 ++ o2)
  end.

Definition is_read_event (e : Event) : bool :=
  match e with EvRead _ _ | EvNotFound _ => true | _ => false end.

(** one call of [write_data] refines the abstract write: the store
    gets the new value when a page is free, and is unchanged (no value lost,
    none added) on a full device. *)
Theorem write_data_refines lba d s :
  wf s -> abs (write_data lba d s).1 = store_write lba d (abs s).
Proof.
  intros Hwf. pose proof (write_data_room lba d s Hwf) as Hroom.
  unfold store_write. destruct (room (abs s)) as [|n] eqn:Hr; simpl in Hr.
  - apply store_eq; [|simpl; rewrite Hroom, Hr; done].
    intros k. rewrite !abs_lookup. by apply write_data_read_full.
  - apply store_eq; [|simpl; rewrite Hroom, Hr; done].
    intros k. rewrite abs_lookup. cbn [contents].
    destruct (decide (k = lba)) as [->|Hne].
    + rewrite lookup_insert_eq. apply write_read_same; [done|].
      apply has_free_page_room; [done|]. lia.
    + rewrite lookup_insert_ne, abs_lookup by done. by apply write_read_other.
Qed.

Lemma read_data_output lba s :
  (read_data lba s).2 =
    [match read_result lba s with Some v => EvRead lba v | None => EvNotFound lba end].
Proof.
  rewrite read_result_spec. unfold read_data, StdMap.count.
  destruct (l2p_table s !! lba) as [a|] eqn:Ha; [|done].
  by rewrite (StdMap.subscript_present _ _ a Ha).
Qed.

Lemma write_data_no_read_events lba d s :
  wf s -> List.filter is_read_event (write_data lba d s).2 = [].
Proof.
  intros Hwf. destruct (find_free_page (flash_memory s)) as [[b p]|] eqn:Hf.
  - rewrite (write_data_found lba d s b p Hwf Hf). unfold invalidation_events.
    by destruct (l2p_table s !! lba).
  - rewrite (write_data_not_found lba d s Hwf Hf). unfold invalidation_events.
    by destruct (l2p_table s !! lba).
Qed.

Lemma exec_refines op s :
  wf s ->
  abs (exec op s).1 = (spec_exec op (abs s)).1 /\
  List.filter is_read_event (exec op s).2 = (spec_exec op (abs s)).2.
Proof.
  intros Hwf. destruct op as [lba d|lba]; cbn [exec spec_exec fst snd].
  - split; [by apply write_data_refines|by apply write_data_no_read_events].
  - rewrite read_data_state, read_data_output, abs_lookup. split; [done|].
    by destruct (read_result lba s).
Qed.

(** C1: any sequence of calls refines the abstract store: the final state
    abstracts to the store the abstract operations compute, and the reads
    print exactly what the abstract store holds at their point. *)
Theorem run_refines ops s :
  wf s ->
  abs (run ops s).1 = (spec_run ops (abs s)).1 /\
  List.filter is_read_event (run ops s).2 = (spec_run ops (abs s)).2.
Proof.
  revert s; induction ops as [|op ops IH]; intros s Hwf; simpl; [done|].
  pose proof (exec_refines op s Hwf) as [Habs Hout].
  pose proof (step_wf s _ Hwf (step_exec op s)) as Hwf1.
  destruct (exec op s) as [s1 out1]. destruct (spec_exec op (abs s)) as [st1 o1].
  simpl in *. subst st1.
  destruct (IH s1 Hwf1) as [Habs2 Hout2].
  destruct (run ops s1) as [s2 out2]. destruct (spec_run ops (abs s1)) as [st2 o2].
  simpl in *. split; [done|]. by rewrite List.filter_app, Hout, Hout2.
Qed.

(** C16: the client theorem of the contract, for the simulator: after a
    sequence of writes that fits in the free pages, every LBA reads its
    most recent value. *)
Theorem read_after_writes l ws s :
  wf s -> (length ws <= room_of s)%nat ->
  read_result l (write_all ws s) =
    match last_write l ws with Some d => Some d | None => read_result l s end.
Proof. intros Hwf Hlen. exact (dev_read_write_all (S := FTL_Simulator) l ws s Hwf Hlen). Qed.

Lemma run_refines_witness :
  wf init /\
  abs (run main_ops init).1 = (spec_run main_ops (abs init)).1 /\
  List.filter is_read_event (run main_ops init).2 = (spec_run main_ops (abs init)).2.
Proof. exact (conj wf_init (run_refines main_ops init wf_init)). Defined.

Definition sample_writes : list (Z * Z) := [(10, 500); (20, 700); (10, 501)].

Lemma read_after_writes_witness :
  wf init /\ (length sample_writes <= room_of init)%nat /\
  read_result 10 (write_all sample_writes init) =
    match last_write 10 sample_writes with
    | Some d => Some d
    | None => read_result 10 init
    end.
Proof.
  assert (Hlen : (length sample_writes <= room_of init)%nat) by (vm_compute; lia).
  exact (conj wf_init (conj Hlen (read_after_writes 10 _ init wf_init Hlen))).
Defined.

End Refinement.
