(* ===== verification/Main.v ===== *)
(** The program's [main] (src/ftl.cpp lines 91-107): its statements, the
    text each [std::cout] line of the simulator prints, and the program as
    a function returning its exit code and its whole output. *)

From stdpp Require Import base list gmap strings pretty.
From Stdlib Require Import ZArith Lia.
From S2P Require Import Prelude Geometry Flash Mapping Ftl.

Module Main.
Import Ftl.
Open Scope Z_scope.

Definition newline : string := String (Ascii.ascii_of_nat 10) EmptyString.

(** The text of one [std::cout << ... << "\n"] of the simulator
    (lines 59, 64, 72, 82 and 86). *)
Definition render (e : Event) : string :=
  match e with
  | EvWritten lba addr =>
      "LBA " +:+ pretty lba +:+ " written to Physical Addr " +:+ pretty addr +:+ newline
  | EvDiskFull => "Disk Full! Garbage Collection required." +:+ newline
  | EvInvalidated addr =>
      "  [Info] Physical Addr " +:+ pretty addr +:+ " marked INVALID (stale)." +:+ newline
  | EvRead lba v => "Read LBA " +:+ pretty lba +:+ " -> Value: " +:+ pretty v +:+ newline
  | EvNotFound lba => "LBA " +:+ pretty lba +:+ " not found!" +:+ newline
  | EvBanner text => text
  end.

(** A statement of [main]: a banner printed directly, or a method call. *)
Inductive Stmt :=
  | SPrint (text : string)
  | SCall (op : Op).

Definition exec_stmt (st : Stmt) (s : FTL_Simulator) : FTL_Simulator * list Event :=
  match st with
  | SPrint text => (s, [EvBanner text])
  | SCall op => exec op s
  end.

Fixpoint run_stmts (sts : list Stmt) (s : FTL_Simulator) : FTL_Simulator * list Event :=
  match sts with
  | [] => (s, [])
  | st :: sts' =>
      let '(s1, out1) := exec_stmt st s in
      let '(s2, out2) := run_stmts sts' s1 in
      (s2, out1 ++ out2)
  end.

Definition banner1 : string := "--- Step 1: Writing Data ---" +:+ newline.
Definition banner2 : string :=
  newline +:+ "--- Step 2: Overwriting LBA 10 (Demonstrating Out-of-Place Update) ---" +:+ newline.
Definition banner3 : string := newline +:+ "--- Step 3: Reading Data ---" +:+ newline.

(** The body of [main]. *)
Definition main_body : list Stmt :=
  [SPrint banner1; SCall (OpWrite 10 500); SCall (OpWrite 20 700);
   SPrint banner2; SCall (OpWrite 10 501);
   SPrint banner3; SCall (OpRead 10); SCall (OpRead 20)].

(** [int main()]: its return value and everything it prints. *)
Definition main : Z * string :=
  (0, foldr (fun e acc => render e +:+ acc) "" (run_stmts main_body init).2).

End Main.
